(** * felix/nftables: the nftables table reconciler

    A shallow embedding of [rules.go] and [table.go] of the nftables
    dataplane of Felix, and the properties of the reconciler checked
    against it.

    Conventions of the embedding:
    - Go strings are byte strings: [string] of the Standard Library.
    - Go maps are [gmap], the [set.Set[string]] of libcalico-go is [gset].
      A lookup that yields [None] is the Go zero value (a nil slice, a nil
      pointer or 0), which the code tells apart from an empty slice at
      [reflect.DeepEqual].
    - [int], [time.Duration] are 64-bit: [Z] with the wrap-around written
      out where the code computes.
    - A Go panic (including an index out of range) is the outcome [Panic].
    - The kernel, the clock and the feature detector are a [World]: oracles
      indexed by call number, and a trace of the calls made.
    - Logging and Prometheus metrics are left out. *)

From stdpp Require Import gmap strings list fin_maps.
From Stdlib Require Import ZArith Ascii String DecimalString.

Open Scope string_scope.
Open Scope Z_scope.

(** ** Go's standard library, as far as the package uses it *)
Module Go.

(** Outcome of a computation that may panic. *)
Inductive Res (A : Type) : Type :=
| Val (a : A)
| Panic (msg : string).
Arguments Val {A} a.
Arguments Panic {A} msg.

#[export] Instance res_ret : MRet Res := fun A a => Val a.

#[export] Instance res_bind : MBind Res := fun A B k r =>
  match r with
  | Val a => k a
  | Panic msg => Panic msg
  end.

(** [l[i]]: Go panics when the index is out of range. *)
Definition index {A} (l : list A) (i : nat) : Res A :=
  match l !! i with
  | Some x => Val x
  | None => Panic "index out of range"
  end.

(** [l[i] = x], with the same panic. *)
Definition store {A} (l : list A) (i : nat) (x : A) : Res (list A) :=
  if decide (i < List.length l)%nat then Val (<[i:=x]> l)
  else Panic "index out of range".

(** Two's complement wrap-around of a 64-bit signed integer. *)
Definition wrap64 (z : Z) : Z := (z + 2 ^ 63) mod 2 ^ 64 - 2 ^ 63.

Definition maxDuration : Z := 2 ^ 63 - 1.
Definition minDuration : Z := - 2 ^ 63.

(** [time.Time] as nanoseconds since the Unix epoch; [time.Duration] as
    nanoseconds. *)
Definition Millisecond : Z := 1000000.
Definition Second : Z := 1000 * Millisecond.
Definition Hour : Z := 3600 * Second.

(** The zero [time.Time] is January 1, year 1, 00:00 UTC. *)
Definition zeroTime : Z := - 62135596800 * Second.

(** [t.Sub(u)]: saturates at the largest and smallest duration. *)
Definition time_Sub (t u : Z) : Z :=
  let d := t - u in
  if d >? maxDuration then maxDuration
  else if d <? minDuration then minDuration
  else d.

Definition time_Add (t d : Z) : Z := t + d.
Definition time_Before (t u : Z) : bool := t <? u.

(** [strings.Join]. *)
Definition Join (elems : list string) (sep : string) : string :=
  String.concat sep elems.

(** [strings.Split(s, ":")[0]]: the text before the first colon, the
    whole string when it has none. *)
Fixpoint beforeColon (s : string) : string :=
  match s with
  | EmptyString => EmptyString
  | String c rest =>
      if Ascii.eqb c ":"%char then EmptyString
      else String c (beforeColon rest)
  end.

(** [strings.TrimPrefix]. *)
Definition TrimPrefix (s pre : string) : string :=
  if String.prefix pre s
  then String.substring (String.length pre)
         (String.length s - String.length pre) s
  else s.

(** [s[0:n]] for [n <= len(s)]. *)
Definition slice_to (n : nat) (s : string) : string :=
  String.substring 0 n s.

(** *** UTF-8 decoding, as [regexp] steps through a string

    [runeWidth c rest] is the width [utf8.DecodeRuneInString] reports for
    the text [String c rest]: a malformed or truncated sequence is one
    byte wide (and decodes to U+FFFD). *)
Definition byte_in (lo hi : N) (c : ascii) : bool :=
  let n := N_of_ascii c in (N.leb lo n && N.leb n hi)%bool.

Definition cont_byte : ascii -> bool := byte_in 128 191.

Definition runeWidth (c : ascii) (rest : string) : nat :=
  let n := N_of_ascii c in
  let two (ok1 : ascii -> bool) :=
    match rest with
    | String c1 _ => if ok1 c1 then 2%nat else 1%nat
    | _ => 1%nat
    end in
  let three (ok1 : ascii -> bool) :=
    match rest with
    | String c1 (String c2 _) =>
        if (ok1 c1 && cont_byte c2)%bool then 3%nat else 1%nat
    | _ => 1%nat
    end in
  let four (ok1 : ascii -> bool) :=
    match rest with
    | String c1 (String c2 (String c3 _)) =>
        if (ok1 c1 && cont_byte c2 && cont_byte c3)%bool then 4%nat
        else 1%nat
    | _ => 1%nat
    end in
  if N.ltb n 128 then 1%nat
  else if N.ltb n 194 then 1%nat
  else if N.leb n 223 then two cont_byte
  else if N.eqb n 224 then three (byte_in 160 191)
  else if N.eqb n 237 then three (byte_in 128 159)
  else if N.leb n 239 then three cont_byte
  else if N.eqb n 240 then four (byte_in 144 191)
  else if N.leb n 243 then four cont_byte
  else if N.eqb n 244 then four (byte_in 128 143)
  else 1%nat.

End Go.

Import Go.

(** ** Types of the package that [rules.go] and [table.go] only use *)

(** Modelled from the spec: the [MatchCriteria] interface is declared
    outside the two files; section 9 gives it a rendering and the IP-set
    names it refers to. *)
Class MatchCriteria (M : Type) : Type := {
  match_Render : M -> string;
  match_IPSetNames : M -> list string
}.

(** Modelled from the spec: the [Action] interface and the [Referrer]
    capability are declared outside the two files. [ToFragment] renders the
    verdict for a feature set; [ReferencedChain] is [Some target] exactly
    for the actions on which the type assertion [r.Action.(Referrer)]
    succeeds. [F] stands for [environment.Features]. *)
Class Action (F A : Type) : Type := {
  ToFragment : A -> F -> string;
  ReferencedChain : A -> option string
}.

(** [crypto/sha256] and [encoding/base64]: [sha224] is the digest of a byte
    string, [base64url] is [base64.RawURLEncoding.EncodeToString]. *)
Class Hasher : Type := {
  sha224 : string -> string;
  base64url : string -> string
}.

(** [regexp.MustCompile(pattern).MatchString]; [None] when the pattern does
    not compile (MustCompile panics). *)
Class Regexp : Type := {
  MustCompile : string -> option (string -> bool)
}.

(** [knftables.Rule], the fields the package reads and writes. *)
Record KRule : Type := mkKRule {
  kr_Chain : string;
  kr_Rule : string;
  kr_Comment : option string;
  kr_Handle : option Z
}.

(** The operations of a [knftables.Transaction], in the order added. *)
Inductive TxOp : Type :=
| TxAddTable
| TxAddChain (name : string)
| TxAddSet (name type : string)
| TxAddRule (r : KRule)
| TxInsertRule (r : KRule)
| TxReplaceRule (r : KRule)
| TxDeleteRule (r : KRule)
| TxFlushChain (name : string)
| TxDeleteChain (name : string).

(** ** rules.go *)
Section Rules.
Context {F M A : Type} `{!MatchCriteria M} `{!Action F A} `{!Hasher}.

Definition HashLength : nat := 16.

Record Rule : Type := mkRule {
  Match : M;
  Action_ : option A;   (* [None] is the nil interface *)
  Comment : list string
}.

(** [shellUnsafe] matches one rune outside [\w @%+=:,./-]. *)
Definition shellSafe (c : ascii) : bool :=
  (byte_in 48 57 c || byte_in 65 90 c || byte_in 97 122 c
   || Ascii.eqb c "_" || Ascii.eqb c " " || Ascii.eqb c "@"
   || Ascii.eqb c "%" || Ascii.eqb c "+" || Ascii.eqb c "="
   || Ascii.eqb c ":" || Ascii.eqb c "," || Ascii.eqb c "."
   || Ascii.eqb c "/" || Ascii.eqb c "-")%bool%char.

(** [shellUnsafe.ReplaceAllString(s, "_")]: every rune outside the safe
    set becomes one underscore. A rune wider than one byte is never safe;
    [skip] counts the bytes of it still to drop. *)
Fixpoint replaceUnsafe (skip : nat) (s : string) : string :=
  match s with
  | EmptyString => EmptyString
  | String c rest =>
      match skip with
      | S k => replaceUnsafe k rest
      | O =>
          match runeWidth c rest with
          | S (S k) => String "_" (replaceUnsafe (S k) rest)
          | _ => String (if shellSafe c then c else "_"%char)
                        (replaceUnsafe 0 rest)
          end
      end
  end.

Definition escapeComment (s : string) : string := replaceUnsafe 0 s.

Definition maxCommentLen : nat := 256.

Definition truncateComment (s : string) : string :=
  if (maxCommentLen <? String.length s)%nat
  then slice_to maxCommentLen s
  else s.

(** [Rule.comment]: [None] is the nil [*string]. *)
Definition comment (r : Rule) (prefixFragment : string) : option string :=
  let fragments :=
    map (fun c =>
           let c := escapeComment c in
           let c := truncateComment c in
           prefixFragment ++ "; " ++ c) (Comment r) in
  let cmt := Join fragments " " in
  if String.eqb cmt "" then None else Some cmt.

Definition renderInner (fragments : list string) (prefixFragment : string)
    (features : F) (r : Rule) : string :=
  let fragments :=
    if negb (String.eqb prefixFragment "")
    then (fragments ++ [prefixFragment])%list else fragments in
  let matchFragment := match_Render (Match r) in
  let fragments :=
    if negb (String.eqb matchFragment "")
    then (fragments ++ [matchFragment])%list else fragments in
  let fragments :=
    match Action_ r with
    | Some a =>
        let actionFragment := ToFragment a features in
        if negb (String.eqb actionFragment "")
        then (fragments ++ [actionFragment])%list else fragments
    | None => fragments
    end in
  let inner := Join fragments " " in
  if decide (String.length inner = 0%nat) then "counter" else inner.

Definition Render (r : Rule) (chain prefixFragment : string)
    (features : F) : KRule :=
  {| kr_Chain := chain;
     kr_Rule := renderInner [] "" features r;
     kr_Comment := comment r prefixFragment;
     kr_Handle := None |}.

Definition RenderAppend (r : Rule) (table chainName prefixFragment : string)
    (features : F) : string :=
  renderInner ["add rule"; table; chainName] prefixFragment features r.

Record Chain : Type := mkChain {
  Name : string;
  Rules : list Rule
}.

(** The loop of [RuleHashes]: [hash] is the digest chained in from the
    rules before. *)
Fixpoint ruleHashesFrom (name : string) (features : F) (hash : string)
    (rules : list Rule) : list string :=
  match rules with
  | [] => []
  | rule :: rest =>
      let ruleForHashing := RenderAppend rule "" name "HASH" features in
      let hash := sha224 (hash ++ ruleForHashing) in
      slice_to HashLength (base64url hash)
        :: ruleHashesFrom name features hash rest
  end.

(** [Chain.RuleHashes] on a chain that is not nil. The encoded digest
    has 38 characters, so taking its first 16 cannot fail. *)
Definition RuleHashes (c : Chain) (features : F) : list string :=
  ruleHashesFrom (Name c) features (sha224 (Name c)) (Rules c).

Definition IPSetNames (c : Chain) : list string :=
  List.concat (map (fun rule => match_IPSetNames (Match rule)) (Rules c)).

(** [CalculateRuleHashes] of table.go. *)
Definition CalculateRuleHashes (chainName : string) (rules : list Rule)
    (features : F) : list string :=
  RuleHashes {| Name := chainName; Rules := rules |} features.

End Rules.

Arguments Rule : clear implicits.
Arguments Chain : clear implicits.

(** ** table.go *)
Section TableModel.
Context {F M A : Type} `{!MatchCriteria M} `{!Action F A} `{!Hasher} `{!Regexp}.

Definition MaxChainNameLength : nat := 28.
Definition minPostWriteInterval : Z := 50 * Millisecond.

(** List of all the top-level chains by table. *)
Definition tableToChains : gmap string (list string) :=
  list_to_map
    [("cali-filter", ["INPUT"; "FORWARD"; "OUTPUT"]);
     ("cali-nat", ["PREROUTING"; "INPUT"; "OUTPUT"; "POSTROUTING"]);
     ("cali-mangle",
      ["PREROUTING"; "INPUT"; "FORWARD"; "OUTPUT"; "POSTROUTING"]);
     ("cali-raw", ["PREROUTING"; "OUTPUT"])].

(** [tableToChains[name]]: the nil slice for a table that is not listed. *)
Definition kernelChains (name : string) : list string :=
  default [] (tableToChains !! name).

(** The fields of [Table] that hold state or configuration. The name of the
    table is [TableName] ([Name] is the chain's). *)
Record Table : Type := mkTable {
  TableName : string;
  IPVersion : Z;
  chainToInsertedRules : gmap string (list (Rule M A));
  chainToAppendedRules : gmap string (list (Rule M A));
  dirtyInsertAppend : gset string;
  chainNameToChain : gmap string (Chain M A);
  chainRefCounts : gmap string Z;
  dirtyChains : gset string;
  inSyncWithDataPlane : bool;
  chainToDataplaneHashes : gmap string (list string);
  chainToFullRules : gmap string (list KRule);
  hashCommentPrefix : string;
  hashCommentRegexp : string -> bool;
  ourChainsRegexp : string -> bool;
  insertMode : string;
  lastReadTime : Z;
  lastWriteTime : Z;
  initialPostWriteInterval : Z;
  postWriteInterval : Z;
  refreshInterval : Z;
  peakNftablesReadTime : Z;
  peakNftablesWriteTime : Z;
  reason : string
}.

(** Field updates. *)
Definition set_chainToInsertedRules (v : gmap string (list (Rule M A)))
    (t : Table) : Table :=
  mkTable (TableName t) (IPVersion t) v (chainToAppendedRules t)
    (dirtyInsertAppend t) (chainNameToChain t) (chainRefCounts t)
    (dirtyChains t) (inSyncWithDataPlane t) (chainToDataplaneHashes t)
    (chainToFullRules t) (hashCommentPrefix t) (hashCommentRegexp t)
    (ourChainsRegexp t) (insertMode t) (lastReadTime t) (lastWriteTime t)
    (initialPostWriteInterval t) (postWriteInterval t) (refreshInterval t)
    (peakNftablesReadTime t) (peakNftablesWriteTime t) (reason t).

Definition set_chainToAppendedRules (v : gmap string (list (Rule M A)))
    (t : Table) : Table :=
  mkTable (TableName t) (IPVersion t) (chainToInsertedRules t) v
    (dirtyInsertAppend t) (chainNameToChain t) (chainRefCounts t)
    (dirtyChains t) (inSyncWithDataPlane t) (chainToDataplaneHashes t)
    (chainToFullRules t) (hashCommentPrefix t) (hashCommentRegexp t)
    (ourChainsRegexp t) (insertMode t) (lastReadTime t) (lastWriteTime t)
    (initialPostWriteInterval t) (postWriteInterval t) (refreshInterval t)
    (peakNftablesReadTime t) (peakNftablesWriteTime t) (reason t).

Definition set_dirtyInsertAppend (v : gset string) (t : Table) : Table :=
  mkTable (TableName t) (IPVersion t) (chainToInsertedRules t)
    (chainToAppendedRules t) v (chainNameToChain t) (chainRefCounts t)
    (dirtyChains t) (inSyncWithDataPlane t) (chainToDataplaneHashes t)
    (chainToFullRules t) (hashCommentPrefix t) (hashCommentRegexp t)
    (ourChainsRegexp t) (insertMode t) (lastReadTime t) (lastWriteTime t)
    (initialPostWriteInterval t) (postWriteInterval t) (refreshInterval t)
    (peakNftablesReadTime t) (peakNftablesWriteTime t) (reason t).

Definition set_chainNameToChain (v : gmap string (Chain M A))
    (t : Table) : Table :=
  mkTable (TableName t) (IPVersion t) (chainToInsertedRules t)
    (chainToAppendedRules t) (dirtyInsertAppend t) v (chainRefCounts t)
    (dirtyChains t) (inSyncWithDataPlane t) (chainToDataplaneHashes t)
    (chainToFullRules t) (hashCommentPrefix t) (hashCommentRegexp t)
    (ourChainsRegexp t) (insertMode t) (lastReadTime t) (lastWriteTime t)
    (initialPostWriteInterval t) (postWriteInterval t) (refreshInterval t)
    (peakNftablesReadTime t) (peakNftablesWriteTime t) (reason t).

Definition set_chainRefCounts (v : gmap string Z) (t : Table) : Table :=
  mkTable (TableName t) (IPVersion t) (chainToInsertedRules t)
    (chainToAppendedRules t) (dirtyInsertAppend t) (chainNameToChain t) v
    (dirtyChains t) (inSyncWithDataPlane t) (chainToDataplaneHashes t)
    (chainToFullRules t) (hashCommentPrefix t) (hashCommentRegexp t)
    (ourChainsRegexp t) (insertMode t) (lastReadTime t) (lastWriteTime t)
    (initialPostWriteInterval t) (postWriteInterval t) (refreshInterval t)
    (peakNftablesReadTime t) (peakNftablesWriteTime t) (reason t).

Definition set_dirtyChains (v : gset string) (t : Table) : Table :=
  mkTable (TableName t) (IPVersion t) (chainToInsertedRules t)
    (chainToAppendedRules t) (dirtyInsertAppend t) (chainNameToChain t)
    (chainRefCounts t) v (inSyncWithDataPlane t) (chainToDataplaneHashes t)
    (chainToFullRules t) (hashCommentPrefix t) (hashCommentRegexp t)
    (ourChainsRegexp t) (insertMode t) (lastReadTime t) (lastWriteTime t)
    (initialPostWriteInterval t) (postWriteInterval t) (refreshInterval t)
    (peakNftablesReadTime t) (peakNftablesWriteTime t) (reason t).

Definition set_inSyncWithDataPlane (v : bool) (t : Table) : Table :=
  mkTable (TableName t) (IPVersion t) (chainToInsertedRules t)
    (chainToAppendedRules t) (dirtyInsertAppend t) (chainNameToChain t)
    (chainRefCounts t) (dirtyChains t) v (chainToDataplaneHashes t)
    (chainToFullRules t) (hashCommentPrefix t) (hashCommentRegexp t)
    (ourChainsRegexp t) (insertMode t) (lastReadTime t) (lastWriteTime t)
    (initialPostWriteInterval t) (postWriteInterval t) (refreshInterval t)
    (peakNftablesReadTime t) (peakNftablesWriteTime t) (reason t).

Definition set_chainToDataplaneHashes (v : gmap string (list string))
    (t : Table) : Table :=
  mkTable (TableName t) (IPVersion t) (chainToInsertedRules t)
    (chainToAppendedRules t) (dirtyInsertAppend t) (chainNameToChain t)
    (chainRefCounts t) (dirtyChains t) (inSyncWithDataPlane t) v
    (chainToFullRules t) (hashCommentPrefix t) (hashCommentRegexp t)
    (ourChainsRegexp t) (insertMode t) (lastReadTime t) (lastWriteTime t)
    (initialPostWriteInterval t) (postWriteInterval t) (refreshInterval t)
    (peakNftablesReadTime t) (peakNftablesWriteTime t) (reason t).

Definition set_chainToFullRules (v : gmap string (list KRule))
    (t : Table) : Table :=
  mkTable (TableName t) (IPVersion t) (chainToInsertedRules t)
    (chainToAppendedRules t) (dirtyInsertAppend t) (chainNameToChain t)
    (chainRefCounts t) (dirtyChains t) (inSyncWithDataPlane t)
    (chainToDataplaneHashes t) v (hashCommentPrefix t) (hashCommentRegexp t)
    (ourChainsRegexp t) (insertMode t) (lastReadTime t) (lastWriteTime t)
    (initialPostWriteInterval t) (postWriteInterval t) (refreshInterval t)
    (peakNftablesReadTime t) (peakNftablesWriteTime t) (reason t).

Definition set_lastReadTime (v : Z) (t : Table) : Table :=
  mkTable (TableName t) (IPVersion t) (chainToInsertedRules t)
    (chainToAppendedRules t) (dirtyInsertAppend t) (chainNameToChain t)
    (chainRefCounts t) (dirtyChains t) (inSyncWithDataPlane t)
    (chainToDataplaneHashes t) (chainToFullRules t) (hashCommentPrefix t)
    (hashCommentRegexp t) (ourChainsRegexp t) (insertMode t) v
    (lastWriteTime t) (initialPostWriteInterval t) (postWriteInterval t)
    (refreshInterval t) (peakNftablesReadTime t) (peakNftablesWriteTime t)
    (reason t).

Definition set_lastWriteTime (v : Z) (t : Table) : Table :=
  mkTable (TableName t) (IPVersion t) (chainToInsertedRules t)
    (chainToAppendedRules t) (dirtyInsertAppend t) (chainNameToChain t)
    (chainRefCounts t) (dirtyChains t) (inSyncWithDataPlane t)
    (chainToDataplaneHashes t) (chainToFullRules t) (hashCommentPrefix t)
    (hashCommentRegexp t) (ourChainsRegexp t) (insertMode t) (lastReadTime t)
    v (initialPostWriteInterval t) (postWriteInterval t) (refreshInterval t)
    (peakNftablesReadTime t) (peakNftablesWriteTime t) (reason t).

Definition set_postWriteInterval (v : Z) (t : Table) : Table :=
  mkTable (TableName t) (IPVersion t) (chainToInsertedRules t)
    (chainToAppendedRules t) (dirtyInsertAppend t) (chainNameToChain t)
    (chainRefCounts t) (dirtyChains t) (inSyncWithDataPlane t)
    (chainToDataplaneHashes t) (chainToFullRules t) (hashCommentPrefix t)
    (hashCommentRegexp t) (ourChainsRegexp t) (insertMode t) (lastReadTime t)
    (lastWriteTime t) (initialPostWriteInterval t) v (refreshInterval t)
    (peakNftablesReadTime t) (peakNftablesWriteTime t) (reason t).

Definition set_peakNftablesReadTime (v : Z) (t : Table) : Table :=
  mkTable (TableName t) (IPVersion t) (chainToInsertedRules t)
    (chainToAppendedRules t) (dirtyInsertAppend t) (chainNameToChain t)
    (chainRefCounts t) (dirtyChains t) (inSyncWithDataPlane t)
    (chainToDataplaneHashes t) (chainToFullRules t) (hashCommentPrefix t)
    (hashCommentRegexp t) (ourChainsRegexp t) (insertMode t) (lastReadTime t)
    (lastWriteTime t) (initialPostWriteInterval t) (postWriteInterval t)
    (refreshInterval t) v (peakNftablesWriteTime t) (reason t).

Definition set_reason (v : string) (t : Table) : Table :=
  mkTable (TableName t) (IPVersion t) (chainToInsertedRules t)
    (chainToAppendedRules t) (dirtyInsertAppend t) (chainNameToChain t)
    (chainRefCounts t) (dirtyChains t) (inSyncWithDataPlane t)
    (chainToDataplaneHashes t) (chainToFullRules t) (hashCommentPrefix t)
    (hashCommentRegexp t) (ourChainsRegexp t) (insertMode t) (lastReadTime t)
    (lastWriteTime t) (initialPostWriteInterval t) (postWriteInterval t)
    (refreshInterval t) (peakNftablesReadTime t) (peakNftablesWriteTime t) v.

(** *** Reference counts *)

(** [t.chainRefCounts[name]]: 0 for a name that is not in the map. *)
Definition refCount (t : Table) (name : string) : Z :=
  default 0 (chainRefCounts t !! name).

Definition chainIsReferenced (t : Table) (name : string) : bool :=
  refCount t name >? 0.

(** The chain a rule's action jumps or goes to: the type assertion
    [r.Action.(Referrer)], which fails on a nil action. *)
Definition referredChain (r : Rule M A) : option string :=
  match Action_ r with
  | Some a => ReferencedChain a
  | None => None
  end.

(** The loop shared by [maybeIncrefReferredChains] and
    [maybeDecrefReferredChains]: [step] is [increfChain] or [decrefChain].
    [None] stands for a call that does not return. *)
Fixpoint forReferredChains (step : string -> Table -> option Table)
    (rules : list (Rule M A)) (t : Table) : option Table :=
  match rules with
  | [] => Some t
  | r :: rest =>
      match referredChain r with
      | Some ref =>
          match step ref t with
          | Some t' => forReferredChains step rest t'
          | None => None
          end
      | None => forReferredChains step rest t
      end
  end.

Definition maybeReferredChains (step : string -> Table -> option Table)
    (chainName : string) (rules : list (Rule M A)) (t : Table)
    : option Table :=
  if negb (chainIsReferenced t chainName) then Some t
  else forReferredChains step rules t.

(** [increfChain] and [maybeIncrefReferredChains] call each other; the
    depth of the recursion is bounded by [fuel], and [None] is a recursion
    deeper than that. *)
Fixpoint increfChain (fuel : nat) (chainName : string) (t : Table)
    : option Table :=
  match fuel with
  | O => None
  | S fuel =>
      let t :=
        set_chainRefCounts
          (<[chainName := wrap64 (refCount t chainName + 1)]>
             (chainRefCounts t)) t in
      if refCount t chainName =? 1 then
        let t := set_dirtyChains ({[chainName]} ∪ dirtyChains t) t in
        match chainNameToChain t !! chainName with
        | Some chain =>
            maybeReferredChains (increfChain fuel) chainName (Rules chain) t
        | None => Some t
        end
      else Some t
  end.

Definition maybeIncrefReferredChains (fuel : nat) (chainName : string)
    (rules : list (Rule M A)) (t : Table) : option Table :=
  maybeReferredChains (increfChain fuel) chainName rules t.

Fixpoint decrefChain (fuel : nat) (chainName : string) (t : Table)
    : option Table :=
  match fuel with
  | O => None
  | S fuel =>
      if refCount t chainName =? 1 then
        match
          match chainNameToChain t !! chainName with
          | Some chain =>
              maybeReferredChains (decrefChain fuel) chainName
                (Rules chain) t
          | None => Some t
          end
        with
        | Some t =>
            let t :=
              set_chainRefCounts (delete chainName (chainRefCounts t)) t in
            Some (set_dirtyChains ({[chainName]} ∪ dirtyChains t) t)
        | None => None
        end
      else
        (* Chain still referenced, just decrement. *)
        Some (set_chainRefCounts
                (<[chainName := wrap64 (refCount t chainName - 1)]>
                   (chainRefCounts t)) t)
  end.

Definition maybeDecrefReferredChains (fuel : nat) (chainName : string)
    (rules : list (Rule M A)) (t : Table) : option Table :=
  maybeReferredChains (decrefChain fuel) chainName rules t.

(** *** The public mutations *)

Definition InvalidateDataplaneCache (reason : string) (t : Table) : Table :=
  if negb (inSyncWithDataPlane t) then t
  else set_reason reason (set_inSyncWithDataPlane false t).

Definition InsertOrAppendRules (fuel : nat) (chainName : string)
    (rules : list (Rule M A)) (t : Table) : option Table :=
  let oldRules := default [] (chainToInsertedRules t !! chainName) in
  let t :=
    set_chainToInsertedRules
      (<[chainName := rules]> (chainToInsertedRules t)) t in
  let t := set_dirtyInsertAppend ({[chainName]} ∪ dirtyInsertAppend t) t in
  t ← maybeIncrefReferredChains fuel chainName rules t;
  t ← maybeDecrefReferredChains fuel chainName oldRules t;
  Some (InvalidateDataplaneCache "insertion" t).

Definition AppendRules (fuel : nat) (chainName : string)
    (rules : list (Rule M A)) (t : Table) : option Table :=
  let oldRules := default [] (chainToAppendedRules t !! chainName) in
  let t :=
    set_chainToAppendedRules
      (<[chainName := rules]> (chainToAppendedRules t)) t in
  let t := set_dirtyInsertAppend ({[chainName]} ∪ dirtyInsertAppend t) t in
  t ← maybeIncrefReferredChains fuel chainName rules t;
  t ← maybeDecrefReferredChains fuel chainName oldRules t;
  Some (InvalidateDataplaneCache "insertion" t).

Definition UpdateChain (fuel : nat) (chain : Chain M A) (t : Table)
    : option Table :=
  t ← maybeIncrefReferredChains fuel (Name chain) (Rules chain) t;
  t ← match chainNameToChain t !! Name chain with
      | Some oldChain =>
          maybeDecrefReferredChains fuel (Name chain) (Rules oldChain) t
      | None => Some t
      end;
  let t :=
    set_chainNameToChain (<[Name chain := chain]> (chainNameToChain t)) t in
  if chainIsReferenced t (Name chain) then
    let t := set_dirtyChains ({[Name chain]} ∪ dirtyChains t) t in
    Some (InvalidateDataplaneCache "chain update" t)
  else Some t.

Definition RemoveChainByName (fuel : nat) (name : string) (t : Table)
    : option Table :=
  match chainNameToChain t !! name with
  | Some oldChain =>
      t ← maybeDecrefReferredChains fuel name (Rules oldChain) t;
      let t := set_chainNameToChain (delete name (chainNameToChain t)) t in
      if chainIsReferenced t name then
        let t := set_dirtyChains ({[name]} ∪ dirtyChains t) t in
        Some (InvalidateDataplaneCache "chain removal" t)
      else Some t
  | None => Some t
  end.

(** A call of the public mutation API. *)
Inductive Mutation : Type :=
| MUpdateChain (chain : Chain M A)
| MRemoveChainByName (name : string)
| MInsertOrAppendRules (chainName : string) (rules : list (Rule M A))
| MAppendRules (chainName : string) (rules : list (Rule M A)).

Definition mutate (fuel : nat) (m : Mutation) (t : Table) : option Table :=
  match m with
  | MUpdateChain chain => UpdateChain fuel chain t
  | MRemoveChainByName name => RemoveChainByName fuel name t
  | MInsertOrAppendRules chainName rules =>
      InsertOrAppendRules fuel chainName rules t
  | MAppendRules chainName rules => AppendRules fuel chainName rules t
  end.

Fixpoint mutations (fuel : nat) (ms : list Mutation) (t : Table)
    : option Table :=
  match ms with
  | [] => Some t
  | m :: rest =>
      match mutate fuel m t with
      | Some t' => mutations fuel rest t'
      | None => None
      end
  end.

(** *** The world outside the table

    What the kernel returns to one listing of the table: the listing of the
    chains fails, or it yields the chains in order, each with the rules
    [ListRules] returns for it ([None]: that call fails). *)
Inductive ReadOutcome : Type :=
| ListFailed
| Listed (chains : list (string * option (list KRule))).

Inductive OpKind : Type := OpResync | OpUpdate.

(** Where [timeSleep] is called from. *)
Inductive SleepSite : Type := ReadRetry | WriteRetry.

(** The calls the table makes on its collaborators. *)
Inductive Event : Type :=
| EvRefreshFeatures
| EvRecordOperation (op : OpKind)
| EvStillAlive
| EvList
| EvApplyUpdates
| EvRun (tx : list TxOp)
| EvSleep (site : SleepSite) (d : Z)
| EvDiags.

(** The clock, the kernel and the feature detector answer the n-th call
    with the n-th value of their oracle; [trace] lists the calls made so
    far, oldest first. [kernelRuns] gives the error of a transaction, if it
    fails. *)
Record World : Type := mkWorld {
  clock : nat -> Z;
  ticks : nat;
  kernelReads : nat -> ReadOutcome;
  reads : nat;
  kernelRuns : nat -> option string;
  runs : nat;
  detected : nat -> F;
  refreshes : nat;
  trace : list Event
}.

(** A method of the table: it may change the table and the world, and it
    returns or panics. *)
Definition Prog (X : Type) : Type := Table -> World -> Res X * Table * World.

#[export] Instance prog_ret : MRet Prog := fun X x t w => (Val x, t, w).

#[export] Instance prog_bind : MBind Prog := fun X Y k c t w =>
  match c t w with
  | (Val x, t', w') => k x t' w'
  | (Panic msg, t', w') => (Panic msg, t', w')
  end.

Definition panic {X} (msg : string) : Prog X := fun t w => (Panic msg, t, w).

Definition liftRes {X} (r : Res X) : Prog X := fun t w => (r, t, w).

Definition getTable : Prog Table := fun t w => (Val t, t, w).

Definition putTable (t' : Table) : Prog unit := fun _ w => (Val tt, t', w).

Definition modTable (f : Table -> Table) : Prog unit :=
  fun t w => (Val tt, f t, w).

Definition emit (e : Event) : Prog unit := fun t w =>
  (Val tt, t,
   mkWorld (clock w) (ticks w) (kernelReads w) (reads w) (kernelRuns w)
     (runs w) (detected w) (refreshes w) (trace w ++ [e])).

Definition timeNow : Prog Z := fun t w =>
  (Val (clock w (ticks w)), t,
   mkWorld (clock w) (S (ticks w)) (kernelReads w) (reads w) (kernelRuns w)
     (runs w) (detected w) (refreshes w) (trace w)).

Definition timeSleep (site : SleepSite) (d : Z) : Prog unit :=
  emit (EvSleep site d).

Definition onStillAlive : Prog unit := emit EvStillAlive.

Definition RefreshFeatures : Prog unit := fun t w =>
  (Val tt, t,
   mkWorld (clock w) (ticks w) (kernelReads w) (reads w) (kernelRuns w)
     (runs w) (detected w) (S (refreshes w))
     (trace w ++ [EvRefreshFeatures])).

Definition GetFeatures : Prog F := fun t w =>
  (Val (detected w (refreshes w)), t, w).

(** [t.nft.List] followed by [t.nft.ListRules] for each chain. *)
Definition nftList : Prog ReadOutcome := fun t w =>
  (Val (kernelReads w (reads w)), t,
   mkWorld (clock w) (ticks w) (kernelReads w) (S (reads w)) (kernelRuns w)
     (runs w) (detected w) (refreshes w) (trace w ++ [EvList])).

(** [t.nft.Run]. *)
Definition nftRun (tx : list TxOp) : Prog (option string) := fun t w =>
  (Val (kernelRuns w (runs w)), t,
   mkWorld (clock w) (ticks w) (kernelReads w) (reads w) (kernelRuns w)
     (S (runs w)) (detected w) (refreshes w) (trace w ++ [EvRun tx])).

(** *** Construction *)

(** The double quote character. *)
Definition quote : ascii := ascii_of_nat 34.

Record TableOptions : Type := mkTableOptions {
  HistoricChainPrefixes : list string;
  ExtraCleanupRegexPattern : string;
  InsertMode : string;
  RefreshInterval : Z;
  PostWriteInterval : Z
}.

(** [NewTable]; [now] is what [timeNow] returns. The creation of the
    [knftables] interface is taken to succeed. *)
Definition NewTable (name : string) (ipVersion : Z) (hashPrefix : string)
    (options : TableOptions) (now : Z) : Res Table :=
  match
    MustCompile
      ("comment " ++ String quote ("?" ++ hashPrefix
         ++ "([a-zA-Z0-9_-]+)" ++ String quote "?"))
  with
  | None => Panic "regexp: Compile"
  | Some hashCommentRegexp =>
  match
    MustCompile ("^(" ++ Join (HistoricChainPrefixes options) "|" ++ ")")
  with
  | None => Panic "regexp: Compile"
  | Some ourChainsRegexp =>
      let inserts : gmap string (list (Rule M A)) :=
        foldl (fun m kernelChain => <[kernelChain := []]> m) ∅
          (kernelChains name) in
      let appends : gmap string (list (Rule M A)) :=
        foldl (fun m kernelChain => <[kernelChain := []]> m) ∅
          (kernelChains name) in
      let dirtyInsertAppend : gset string :=
        foldl (fun s kernelChain => {[kernelChain]} ∪ s) ∅
          (kernelChains name) in
      let refcounts : gmap string Z :=
        foldl (fun m kernelChain =>
                 <[kernelChain := wrap64 (default 0 (m !! kernelChain) + 1)]>
                   m) ∅
          (kernelChains name) in
      insertMode ←
        (if String.eqb (InsertMode options) ""
            || String.eqb (InsertMode options) "insert"
         then Val "insert"
         else if String.eqb (InsertMode options) "append"
         then Val "append"
         else Panic "Unknown insert mode");
      let postWriteInterval :=
        if PostWriteInterval options <=? minPostWriteInterval
        then minPostWriteInterval else PostWriteInterval options in
      Val {| TableName := name;
             IPVersion := ipVersion;
             chainToInsertedRules := inserts;
             chainToAppendedRules := appends;
             dirtyInsertAppend := dirtyInsertAppend;
             chainNameToChain := ∅;
             chainRefCounts := refcounts;
             dirtyChains := ∅;
             inSyncWithDataPlane := false;
             chainToDataplaneHashes := ∅;
             chainToFullRules := ∅;
             hashCommentPrefix := hashPrefix;
             hashCommentRegexp := hashCommentRegexp;
             ourChainsRegexp := ourChainsRegexp;
             insertMode := insertMode;
             lastReadTime := zeroTime;
             lastWriteTime := now;
             initialPostWriteInterval := postWriteInterval;
             postWriteInterval := postWriteInterval;
             refreshInterval := RefreshInterval options;
             peakNftablesReadTime := 0;
             peakNftablesWriteTime := 0;
             reason := "" |}
  end
  end.

(** *** Expected hashes of a hook chain *)

Definition numEmptyStrings (strs : list string) : nat :=
  List.length (filter (fun s => s = "") strs).

(** [for i, hash := range hashes { allHashes[i+offset] = hash }], from
    index [i] on. *)
Fixpoint storeHashes (i offset : nat) (hashes : list string)
    (allHashes : list string) : Res (list string) :=
  match hashes with
  | [] => Val allHashes
  | hash :: rest =>
      allHashes ← store allHashes (i + offset) hash;
      storeHashes (S i) offset rest allHashes
  end.

(** [features] is what [t.featureDetector.GetFeatures()] returns. *)
Definition expectedHashesForInsertAppendChain (t : Table) (features : F)
    (chainName : string) (numNonCalicoRules : nat)
    : Res (list string * list string * list string) :=
  let insertedRules := default [] (chainToInsertedRules t !! chainName) in
  let appendedRules := default [] (chainToAppendedRules t !! chainName) in
  let allHashes :=
    replicate
      (List.length insertedRules + List.length appendedRules
       + numNonCalicoRules) "" in
  let ourInsertedHashes :=
    if (0 <? List.length insertedRules)%nat
    then CalculateRuleHashes chainName insertedRules features
    else [] in
  let ourAppendedHashes :=
    if (0 <? List.length appendedRules)%nat
    then CalculateRuleHashes (chainName ++ "*appends*") appendedRules features
    else [] in
  let offset :=
    if String.eqb (insertMode t) "append" then numNonCalicoRules
    else 0%nat in
  allHashes ← storeHashes 0 offset ourInsertedHashes allHashes;
  let offset := (List.length insertedRules + numNonCalicoRules)%nat in
  allHashes ← storeHashes 0 offset ourAppendedHashes allHashes;
  Val (allHashes, ourInsertedHashes, ourAppendedHashes).

(** *** Reading the dataplane *)

(** The hash read back from a rule of the dataplane. *)
Definition hashOfRule (hashCommentPrefix : string) (rule : KRule) : string :=
  match kr_Comment rule with
  | Some cmt => TrimPrefix (beforeColon cmt) hashCommentPrefix
  | None => ""
  end.

(** The loop over the listed chains; [None] when a [ListRules] fails. *)
Fixpoint hashesAndRulesOf (hashCommentPrefix : string)
    (chains : list (string * option (list KRule)))
    (hashes : gmap string (list string)) (rules : gmap string (list KRule))
    : option (gmap string (list string) * gmap string (list KRule)) :=
  match chains with
  | [] => Some (hashes, rules)
  | (chain, listed) :: rest =>
      match listed with
      | None => None
      | Some rulesInChain =>
          hashesAndRulesOf hashCommentPrefix rest
            (<[chain := map (hashOfRule hashCommentPrefix) rulesInChain]>
               hashes)
            (<[chain := rulesInChain]> rules)
      end
  end.

(** [None] is the error return. The deferred function updates the peak
    read time on every path. *)
Definition attemptToGetHashesAndRulesFromDataplane
    : Prog (option (gmap string (list string) * gmap string (list KRule))) :=
  startTime ← timeNow;
  outcome ← nftList;
  t ← getTable;
  let result :=
    match outcome with
    | ListFailed => None
    | Listed chains => hashesAndRulesOf (hashCommentPrefix t) chains ∅ ∅
    end in
  endTime ← timeNow;
  let saveDuration := time_Sub endTime startTime in
  let peak := Z.quot (wrap64 (peakNftablesReadTime t * 99)) 100 in
  putTable
    (set_peakNftablesReadTime
       (if saveDuration >? peak then saveDuration else peak) t);;
  mret result.

(** The retry loop of [getHashesAndRulesFromDataplane], with [retries]
    retries left. *)
Fixpoint getHashesAndRulesLoop (retries : nat) (retryDelay : Z)
    : Prog (gmap string (list string) * gmap string (list KRule)) :=
  onStillAlive;;
  r ← attemptToGetHashesAndRulesFromDataplane;
  match r with
  | Some hashesAndRules => mret hashesAndRules
  | None =>
      match retries with
      | S retries =>
          timeSleep ReadRetry retryDelay;;
          getHashesAndRulesLoop retries (wrap64 (retryDelay * 2))
      | O => panic "nftables command failed after retries"
      end
  end.

Definition getHashesAndRulesFromDataplane
    : Prog (gmap string (list string) * gmap string (list KRule)) :=
  getHashesAndRulesLoop 3 (100 * Millisecond).

(** *** Loading the dataplane state *)

Fixpoint foldRes {S X : Type} (f : S -> X -> Res S) (l : list X) (s : S)
    : Res S :=
  match l with
  | [] => Val s
  | x :: rest => s ← f s x; foldRes f rest s
  end.

Definition hasHash (hashes : list string) : bool :=
  existsb (fun hash => negb (String.eqb hash "")) hashes.

(** The body of the first loop of [loadDataplaneState], for one entry of
    [t.chainToDataplaneHashes]. [dataplaneHashes !! chainName = None] is
    the nil slice, which [reflect.DeepEqual] tells apart from every slice
    the table stores. *)
Definition checkExpectedChain (features : F)
    (dataplaneHashes : gmap string (list string)) (t : Table)
    (entry : string * list string) : Res Table :=
  let '(chainName, expectedHashes) := entry in
  if bool_decide (chainName ∈ dirtyChains t)
     || bool_decide (chainName ∈ dirtyInsertAppend t)
  then Val t
  else
    let dpHashes := dataplaneHashes !! chainName in
    if negb (ourChainsRegexp t chainName) then
      let insertedRules :=
        default [] (chainToInsertedRules t !! chainName) in
      if (List.length insertedRules =? 0)%nat then
        if hasHash (default [] dpHashes)
        then Val (set_dirtyInsertAppend
                    ({[chainName]} ∪ dirtyInsertAppend t) t)
        else Val t
      else
        '(expectedHashes, _, _) ←
          expectedHashesForInsertAppendChain t features chainName
            (numEmptyStrings (default [] dpHashes));
        if bool_decide (dpHashes = Some expectedHashes) then Val t
        else Val (set_dirtyInsertAppend
                    ({[chainName]} ∪ dirtyInsertAppend t) t)
    else
      if bool_decide (dpHashes = Some expectedHashes) then Val t
      else Val (set_dirtyChains ({[chainName]} ∪ dirtyChains t) t).

(** The body of the second loop, for one chain of the dataplane. *)
Definition checkUnexpectedChain (t : Table) (entry : string * list string)
    : Table :=
  let '(chainName, dataplaneHashes) := entry in
  if bool_decide (chainName ∈ dirtyChains t)
     || bool_decide (chainName ∈ dirtyInsertAppend t)
  then t
  else
    match chainToDataplaneHashes t !! chainName with
    | Some _ => t
    | None =>
        if negb (ourChainsRegexp t chainName) then
          if hasHash dataplaneHashes
          then set_dirtyInsertAppend ({[chainName]} ∪ dirtyInsertAppend t) t
          else t
        else set_dirtyChains ({[chainName]} ∪ dirtyChains t) t
    end.

(** Go ranges over the two maps in an unspecified order; each step reads
    and marks its own chain only, so the order does not matter, and the
    model takes the chains in the order of [map_to_list]. *)
Definition loadDataplaneState : Prog unit :=
  RefreshFeatures;;
  emit (EvRecordOperation OpResync);;
  now ← timeNow;
  modTable (set_lastReadTime now);;
  '(dataplaneHashes, dataplaneRules) ← getHashesAndRulesFromDataplane;
  features ← GetFeatures;
  t ← getTable;
  t ← liftRes
        (foldRes (checkExpectedChain features dataplaneHashes)
           (map_to_list (chainToDataplaneHashes t)) t);
  let t := foldl checkUnexpectedChain t (map_to_list dataplaneHashes) in
  putTable
    (set_inSyncWithDataPlane true
       (set_chainToFullRules dataplaneRules
          (set_chainToDataplaneHashes dataplaneHashes t))).

(** *** Building the transaction *)

Definition desiredStateOfChain (t : Table) (chainName : string)
    : option (Chain M A) :=
  if negb (chainIsReferenced t chainName) then None
  else chainNameToChain t !! chainName.

Definition commentFrag (t : Table) (hash : string) : string :=
  hashCommentPrefix t ++ hash.

Definition withHandle (handle : option Z) (r : KRule) : KRule :=
  mkKRule (kr_Chain r) (kr_Rule r) (kr_Comment r) handle.

(** First pass over the dirty chains: forward references. *)
Definition forwardReference (t : Table) (chainName : string) : list TxOp :=
  match desiredStateOfChain t chainName with
  | None => [TxFlushChain chainName]
  | Some _ =>
      match chainToDataplaneHashes t !! chainName with
      | None => [TxAddChain chainName]
      | Some _ => []
      end
  end.

(** One round of the loop over the rule positions of a dirty chain. *)
Definition ruleUpdate (t : Table) (features : F) (chainName : string)
    (chain : Chain M A) (previousHashes currentHashes : list string)
    (tx : list TxOp) (i : nat) : Res (list TxOp) :=
  if ((i <? List.length previousHashes)
      && (i <? List.length currentHashes))%nat then
    previous ← index previousHashes i;
    current ← index currentHashes i;
    if String.eqb previous current then Val tx
    else
      (* Hash doesn't match, replace the rule. *)
      current ← index currentHashes i;
      let prefixFrag := commentFrag t current in
      rule ← index (Rules chain) i;
      let rendered := Render rule chainName prefixFrag features in
      full ← index (default [] (chainToFullRules t !! chainName)) i;
      Val (tx ++ [TxReplaceRule (withHandle (kr_Handle full) rendered)])%list
  else if (i <? List.length previousHashes)%nat then
    (* previousHashes was longer, remove the old rules from the end. *)
    current ← index currentHashes i;
    let prefixFrag := commentFrag t current in
    rule ← index (Rules chain) i;
    let rendered := Render rule chainName prefixFrag features in
    full ← index (default [] (chainToFullRules t !! chainName)) i;
    Val (tx ++ [TxDeleteRule (withHandle (kr_Handle full) rendered)])%list
  else
    (* currentHashes was longer.  Append. *)
    current ← index currentHashes i;
    let prefixFrag := commentFrag t current in
    rule ← index (Rules chain) i;
    Val (tx ++ [TxAddRule (Render rule chainName prefixFrag features)])%list.

(** [for i := 0; i < len(previousHashes) || i < len(currentHashes); i++]. *)
Definition ruleUpdates (t : Table) (features : F) (chainName : string)
    (chain : Chain M A) (previousHashes currentHashes : list string)
    (tx : list TxOp) : Res (list TxOp) :=
  foldRes
    (ruleUpdate t features chainName chain previousHashes currentHashes)
    (seq 0 (Nat.max (List.length previousHashes)
              (List.length currentHashes)))
    tx.

(** Second pass over the dirty chains, for one chain. *)
Definition chainUpdate (t : Table) (features : F)
    (acc : list TxOp * gmap string (option (list string)))
    (chainName : string)
    : Res (list TxOp * gmap string (option (list string))) :=
  let '(tx, newHashes) := acc in
  match desiredStateOfChain t chainName with
  | Some chain =>
      let previousHashes :=
        default [] (chainToDataplaneHashes t !! chainName) in
      let currentHashes := RuleHashes chain features in
      let newHashes := <[chainName := Some currentHashes]> newHashes in
      let tx :=
        (tx ++ map (fun mapName => TxAddSet mapName "ipv4_addr")
                 (IPSetNames chain))%list in
      tx ← ruleUpdates t features chainName chain previousHashes
             currentHashes tx;
      Val (tx, newHashes)
  | None => Val acc
  end.

(** One rendered rule of a hook chain. *)
Definition hookRule (t : Table) (features : F) (chainName : string)
    (rules : list (Rule M A)) (hashes : list string)
    (op : KRule -> TxOp) (tx : list TxOp) (i : nat) : Res (list TxOp) :=
  hash ← index hashes i;
  let prefixFrag := commentFrag t hash in
  rule ← index rules i;
  Val (tx ++ [op (Render rule chainName prefixFrag features)])%list.

(** The pass over [dirtyInsertAppend], for one chain. *)
Definition insertAppendUpdate (t : Table) (features : F)
    (acc : list TxOp * gmap string (option (list string))
           * gmap string (list KRule))
    (chainName : string)
    : Res (list TxOp * gmap string (option (list string))
           * gmap string (list KRule)) :=
  let '(tx, newHashes, newChainToFullRules) := acc in
  let previousHashes := chainToDataplaneHashes t !! chainName in
  let newRules := default [] (newChainToFullRules !! chainName) in
  '(newChainHashes, newInsertedRuleHashes, newAppendedRuleHashes) ←
    expectedHashesForInsertAppendChain t features chainName
      (numEmptyStrings (default [] previousHashes));
  if bool_decide (previousHashes = Some newChainHashes) then Val acc
  else
    let tx := (tx ++ [TxFlushChain chainName])%list in
    let rules := default [] (chainToInsertedRules t !! chainName) in
    tx ←
      (if (0 <? List.length rules)%nat then
         if String.eqb (insertMode t) "insert" then
           foldRes
             (hookRule t features chainName rules newInsertedRuleHashes
                TxInsertRule)
             (rev (seq 0 (List.length rules))) tx
         else
           foldRes
             (hookRule t features chainName rules newInsertedRuleHashes
                TxAddRule)
             (seq 0 (List.length rules)) tx
       else Val tx);
    let rules := default [] (chainToAppendedRules t !! chainName) in
    tx ←
      (if (0 <? List.length rules)%nat then
         foldRes
           (hookRule t features chainName rules newAppendedRuleHashes
              TxAddRule)
           (seq 0 (List.length rules)) tx
       else Val tx);
    Val (tx, <[chainName := Some newChainHashes]> newHashes,
         <[chainName := newRules]> newChainToFullRules).

(** The last pass over the dirty chains: deletions. *)
Definition chainDeletion (t : Table)
    (acc : list TxOp * gmap string (option (list string)))
    (chainName : string) : list TxOp * gmap string (option (list string)) :=
  let '(tx, newHashes) := acc in
  match desiredStateOfChain t chainName with
  | None => ((tx ++ [TxDeleteChain chainName])%list,
             <[chainName := None]> newHashes)
  | Some _ => acc
  end.

(** The transaction [applyUpdates] builds, with the hashes to record
    ([None] is the nil slice, for a chain that is deleted) and the staged
    copy of [chainToFullRules]. The dirty sets are visited in the order of
    [elements]. *)
Definition buildTransaction (t : Table) (features : F)
    : Res (list TxOp * gmap string (option (list string))
           * gmap string (list KRule)) :=
  let tx := (TxAddTable :: map TxAddChain (kernelChains (TableName t))) in
  let dirty := elements (dirtyChains t) in
  let tx := (tx ++ List.concat (map (forwardReference t) dirty))%list in
  '(tx, newHashes) ← foldRes (chainUpdate t features) dirty (tx, ∅);
  '(tx, newHashes, newChainToFullRules) ←
    foldRes (insertAppendUpdate t features)
      (elements (dirtyInsertAppend t))
      (tx, newHashes, chainToFullRules t);
  let '(tx, newHashes) := foldl (chainDeletion t) (tx, newHashes) dirty in
  Val (tx, newHashes, newChainToFullRules).

(** [for chainName, hashes := range newHashes]: nil deletes. *)
Definition mergeHashes (newHashes : gmap string (option (list string)))
    (hashes : gmap string (list string)) : gmap string (list string) :=
  map_fold
    (fun chainName entry acc =>
       match entry with
       | None => delete chainName acc
       | Some h => <[chainName := h]> acc
       end)
    hashes newHashes.

(** The dynamic minimum of the post-write interval. *)
Definition dynamicMinimum (t : Table) : Table :=
  if negb (postWriteInterval t =? 0) then
    let dynamicMinPostWriteInterval :=
      wrap64
        (wrap64 (peakNftablesReadTime t + peakNftablesWriteTime t) * 2) in
    if postWriteInterval t <? dynamicMinPostWriteInterval
    then set_postWriteInterval dynamicMinPostWriteInterval t
    else t
  else t.

(** What [applyUpdates] stores once the transaction is through, before it
    reloads the dataplane state. *)
Definition postCommit (newHashes : gmap string (option (list string)))
    (newChainToFullRules : gmap string (list KRule)) (t : Table) : Table :=
  let t := set_dirtyChains ∅ t in
  let t := set_dirtyInsertAppend ∅ t in
  let t :=
    set_chainToDataplaneHashes
      (mergeHashes newHashes (chainToDataplaneHashes t)) t in
  set_chainToFullRules newChainToFullRules t.

(** Running the transaction: [Some err] is the error returned. An empty
    transaction is not sent. *)
Definition commitTransaction (tx : list TxOp) : Prog (option string) :=
  if (List.length tx =? 0)%nat then mret None
  else
    emit (EvRecordOperation OpUpdate);;
    err ← nftRun tx;
    match err with
    | Some e => mret (Some ("error performing nft transaction: " ++ e))
    | None =>
        now ← timeNow;
        modTable
          (fun t =>
             set_postWriteInterval (initialPostWriteInterval t)
               (set_lastWriteTime now t));;
        mret None
    end.

(** The body of [applyUpdates]; [Some err] is the error return. *)
Definition applyUpdatesBody : Prog (option string) :=
  features ← GetFeatures;
  t ← getTable;
  '(tx, newHashes, newChainToFullRules) ←
    liftRes (buildTransaction t features);
  failure ← commitTransaction tx;
  match failure with
  | Some e => mret (Some e)
  | None =>
      modTable dynamicMinimum;;
      modTable (postCommit newHashes newChainToFullRules);;
      loadDataplaneState;;
      mret None
  end.

(** [applyUpdates]: [EvApplyUpdates] marks the call in the trace. *)
Definition applyUpdates : Prog (option string) :=
  emit EvApplyUpdates;;
  applyUpdatesBody.

(** *** Apply *)

(** The loop that doubles the post-write interval. Every round doubles a
    64-bit value, so the interval is 0 after 64 rounds at the latest and
    the loop ends; [None] is a loop that outlasts [fuel] rounds. *)
Fixpoint postWriteLoop (fuel : nat) (now : Z) (invalidated : bool)
    (t : Table) : option (Table * bool) :=
  match fuel with
  | O => None
  | S fuel =>
      if negb (postWriteInterval t =? 0)
         && (postWriteInterval t <? Hour)
         && negb (time_Before now
                    (time_Add (lastWriteTime t) (postWriteInterval t)))
      then
        let t := set_postWriteInterval (wrap64 (postWriteInterval t * 2)) t in
        if negb invalidated
        then postWriteLoop fuel now true
               (InvalidateDataplaneCache "post update" t)
        else postWriteLoop fuel now invalidated t
      else Some (t, invalidated)
  end.

(** The retry loop of [Apply], with [retries] retries left. *)
Fixpoint applyLoop (retries : nat) (backoffTime : Z) : Prog unit :=
  t ← getTable;
  (if negb (inSyncWithDataPlane t) then loadDataplaneState else mret tt);;
  onStillAlive;;
  err ← applyUpdates;
  match err with
  | Some _ =>
      match retries with
      | S retries =>
          timeSleep WriteRetry backoffTime;;
          applyLoop retries (wrap64 (backoffTime * 2))
      | O =>
          emit EvDiags;;
          panic "Failed to program nftables, giving up after retries"
      end
  | None => mret tt
  end.

(** The reschedule hint [Apply] returns. *)
Definition rescheduleAfter (now : Z) (t : Table) : Z :=
  let rescheduleAfter :=
    if refreshInterval t >? 0
    then wrap64 (refreshInterval t - time_Sub now (lastReadTime t))
    else 0 in
  if postWriteInterval t <? Hour then
    let postWriteReached :=
      time_Sub (time_Add (lastWriteTime t) (postWriteInterval t)) now in
    if postWriteReached <=? 0 then 1 * Millisecond
    else if (refreshInterval t <=? 0) || (postWriteReached <? rescheduleAfter)
    then postWriteReached
    else rescheduleAfter
  else rescheduleAfter.

Definition Apply : Prog Z :=
  now ← timeNow;
  t ← getTable;
  let lastReadToNow := time_Sub now (lastReadTime t) in
  let '(t, invalidated) :=
    if (refreshInterval t >? 0) && (lastReadToNow >? refreshInterval t)
    then (InvalidateDataplaneCache "refresh timer" t, true)
    else (t, false) in
  match postWriteLoop 65 now invalidated t with
  | None => panic "post-write interval loop"
  | Some (t, _) =>
      putTable t;;
      applyLoop 10 (1 * Millisecond);;
      t ← getTable;
      mret (rescheduleAfter now t)
  end.

(** *** Queries *)

(** The loop of [CheckRulesPresent] over the rules, from position [i]. *)
Fixpoint presentRules (dpHashesSet : gset string) (hashes : list string)
    (i : nat) (rules : list (Rule M A)) (present : list (Rule M A))
    : Res (list (Rule M A)) :=
  match rules with
  | [] => Val present
  | r :: rest =>
      hash ← index hashes i;
      presentRules dpHashesSet hashes (S i) rest
        (if bool_decide (hash ∈ dpHashesSet) then (present ++ [r])%list
         else present)
  end.

(** The nil slice it returns when no rule is present is the empty list. *)
Definition CheckRulesPresent (chain : string) (rules : list (Rule M A))
    : Prog (list (Rule M A)) :=
  features ← GetFeatures;
  let hashes := CalculateRuleHashes chain rules features in
  '(dpHashes, _) ← getHashesAndRulesFromDataplane;
  let dpHashesSet : gset string :=
    list_to_set (default [] (dpHashes !! chain)) in
  liftRes (presentRules dpHashesSet hashes 0 rules []).

End TableModel.

Arguments Table : clear implicits.
Arguments World : clear implicits.
Arguments Mutation : clear implicits.

(** ** The other renderings and methods *)
Section MoreModel.
Context {F M A : Type} `{!MatchCriteria M} `{!Action F A} `{!Hasher}
  `{!Regexp}.

(** [fmt.Sprintf("%d", n)]: the decimal digits, with a minus sign for a
    negative number. *)
Definition formatInt (n : Z) : string := NilZero.string_of_int (Z.to_int n).

Definition RenderInsert (r : Rule M A) (table chainName prefixFragment : string)
    (features : F) : string :=
  renderInner ["insert rule"; table; chainName] prefixFragment features r.

Definition RenderInsertAtRuleNumber (r : Rule M A) (table chainName : string)
    (ruleNum : Z) (prefixFragment : string) (features : F) : string :=
  renderInner
    ["insert rule"; table; chainName; "position " ++ formatInt ruleNum]
    prefixFragment features r.

Definition RenderReplace (r : Rule M A) (table chainName : string)
    (handle : Z) (prefixFragment : string) (features : F) : string :=
  renderInner
    ["replace rule"; table; chainName; "handle " ++ formatInt handle]
    prefixFragment features r.

Definition renderDeleteByIndexLine (chainName : string) (ruleNum : Z)
    : string :=
  "-D " ++ chainName ++ " " ++ formatInt ruleNum.

Fixpoint UpdateChains (fuel : nat) (chains : list (Chain M A))
    (t : Table M A) : option (Table M A) :=
  match chains with
  | [] => Some t
  | chain :: rest =>
      match UpdateChain fuel chain t with
      | Some t' => UpdateChains fuel rest t'
      | None => None
      end
  end.

Fixpoint RemoveChains (fuel : nat) (chains : list (Chain M A))
    (t : Table M A) : option (Table M A) :=
  match chains with
  | [] => Some t
  | chain :: rest =>
      match RemoveChainByName fuel (Name chain) t with
      | Some t' => RemoveChains fuel rest t'
      | None => None
      end
  end.

(** The loop of [InsertRulesNow] over the rules, from position [i]. *)
Fixpoint insertNowOps (t : Table M A) (features : F) (chain : string)
    (hashes : list string) (i : nat) (rules : list (Rule M A))
    (tx : list TxOp) : Res (list TxOp) :=
  match rules with
  | [] => Val tx
  | r :: rest =>
      hash ← index hashes i;
      let prefixFrag := commentFrag t hash in
      insertNowOps t features chain hashes (S i) rest
        (tx ++ [TxInsertRule (Render r chain prefixFrag features)])%list
  end.

(** [InsertRulesNow]; [Some err] is the error return. *)
Definition InsertRulesNow (chain : string) (rules : list (Rule M A))
    : Prog (option string) :=
  features ← GetFeatures;
  let hashes := CalculateRuleHashes chain rules features in
  t ← getTable;
  tx ← liftRes (insertNowOps t features chain hashes 0 rules [TxAddTable]);
  err ← nftRun tx;
  match err with
  | Some e =>
      mret (Some ("error performing InsertRulesNow nft transaction: " ++ e))
  | None => mret None
  end.

End MoreModel.

(** ** Concrete collaborators, to run the model on examples *)
Module Demo.

(** Actions as a tagged variant: a jump names its target chain. *)
Inductive DemoAction : Type :=
| Jump (target : string)
| Verdict (fragment : string).

#[global] Instance demo_match : MatchCriteria string :=
  {| match_Render := fun m => m; match_IPSetNames := fun _ => [] |}.

#[global] Instance demo_action : Action unit DemoAction :=
  {| ToFragment := fun a _ =>
       match a with
       | Jump target => "jump " ++ target
       | Verdict fragment => fragment
       end;
     ReferencedChain := fun a =>
       match a with
       | Jump target => Some target
       | Verdict _ => None
       end |}.

(** A stand-in for the digest: the reversed text. *)
#[global] Instance demo_hasher : Hasher :=
  {| sha224 := fun s => string_of_list_ascii (rev (list_ascii_of_string s));
     base64url := fun s => s |}.

(** A stand-in for [regexp]: the one pattern of the examples, the chains
    whose name starts with [cali-]. *)
#[global] Instance demo_regexp : Regexp :=
  {| MustCompile := fun pattern =>
       Some (fun s =>
               if String.eqb pattern "^(cali-)" then String.prefix "cali-" s
               else false) |}.

Definition demoOptions : TableOptions :=
  mkTableOptions ["cali-"] "" "" 0 0.

Definition jumpTo (target : string) : Rule string DemoAction :=
  mkRule "" (Some (Jump target)) [].

(** A world whose clock stands still at 0, with the given answers of the
    kernel. *)
Definition demoWorld (kernelReads : nat -> ReadOutcome)
    (kernelRuns : nat -> option string) : World unit :=
  mkWorld (fun _ => 0) 0 kernelReads 0 kernelRuns 0 (fun _ => tt) 0 [].

(** A table with nothing in it. *)
Definition emptyTable : Table string DemoAction :=
  mkTable "" 0 ∅ ∅ ∅ ∅ ∅ ∅ false ∅ ∅ "" (fun _ => false) (fun _ => false)
    "" 0 0 0 0 0 0 0 "".

(** A world in which the kernel already holds two rules in chain
    [cali-x], and every transaction goes through. *)
Definition twoRulesWorld : World unit :=
  demoWorld
    (fun _ =>
       Listed
         [("cali-x",
           Some [mkKRule "cali-x" "accept" (Some "cali:AAAAAAAAAAAAAAAA")
                   (Some 7);
                 mkKRule "cali-x" "drop" (Some "cali:BBBBBBBBBBBBBBBB")
                   (Some 8)])])
    (fun _ => None).

(** A world in which the table is empty and every transaction fails. *)
Definition failingWorld : World unit :=
  demoWorld (fun _ => Listed []) (fun _ => Some "transaction failed").


(** The table for [cali-filter] as [NewTable] builds it at time 0, with
    hash prefix [cali:]. *)
Definition freshTable : Table string DemoAction :=
  match NewTable "cali-filter" 4 "cali:" demoOptions 0 with
  | Val t => t
  | Panic _ => emptyTable
  end.

End Demo.

(** ** Vocabulary of the properties *)
Section Vocabulary.
Context {F M A : Type} `{!MatchCriteria M} `{!Action F A} `{!Hasher}
  `{!Regexp}.

#[local] Abbreviation State := (Table M A * World F)%type.

(** The action fragment of a rule; a nil action renders nothing. *)
Definition actionFragment (r : Rule M A) (features : F) : string :=
  match Action_ r with
  | Some a => ToFragment a features
  | None => ""
  end.

Definition nonEmpty (s : string) : bool := negb (String.eqb s "").

(** [stable R c]: every run of [c] takes the table and the world to a
    state related to the initial one by [R], whether it returns or
    panics. *)
Definition stable {X : Type} (R : State -> State -> Prop) (c : Prog X)
    : Prop :=
  forall t w, R (t, w) ((c t w).1.2, (c t w).2).

(** The table differs at most in [peakNftablesReadTime]. *)
Definition onlyPeakReadTime (s s' : State) : Prop :=
  exists v, s'.1 = set_peakNftablesReadTime v s.1.

(** The rules [CheckRulesPresent] reports: those whose hash, at their
    position, is among the hashes observed in the chain, in input order. *)
Definition presentAmong (observed : list string) (rules : list (Rule M A))
    (hashes : list string) : list (Rule M A) :=
  (filter (fun rh : Rule M A * string => rh.2 ∈ observed)
     (zip rules hashes)).*1.

(** The events that are not a call of [applyUpdates], a sleep of the retry
    loop of [Apply], or the gathering of diagnostics. *)
Definition isQuiet (e : Event) : bool :=
  match e with
  | EvApplyUpdates | EvDiags | EvSleep WriteRetry _ => false
  | _ => true
  end.

(** The trace grows by quiet events only. *)
Definition quietly (s s' : State) : Prop :=
  exists new, trace s'.2 = (trace s.2 ++ new)%list
              /\ Forall (fun e => isQuiet e = true) new.

Definition isApplyUpdates (e : Event) : bool :=
  match e with EvApplyUpdates => true | _ => false end.

(** The number of calls of [applyUpdates] in a piece of trace. *)
Definition attempts (evs : list Event) : nat :=
  List.length (List.filter isApplyUpdates evs).

(** The durations slept by the retry loop of [Apply], in order. *)
Definition backoffs (evs : list Event) : list Z :=
  flat_map
    (fun e => match e with EvSleep WriteRetry d => [d] | _ => [] end) evs.

(** Whether diagnostics were gathered. *)
Definition diagnosed (evs : list Event) : bool :=
  existsb (fun e => match e with EvDiags => true | _ => false end) evs.

(** [k] durations that start at [b] and double. *)
Fixpoint doubling (b : Z) (k : nat) : list Z :=
  match k with
  | O => []
  | S k => b :: doubling (wrap64 (b * 2)) k
  end.

(** The durations [Apply] sleeps for between two attempts: 1ms, doubled
    after each failure. *)
Definition backoffSchedule : list Z :=
  map (fun k => 2 ^ Z.of_nat k * Millisecond) (seq 0 10).

End Vocabulary.

Arguments onlyPeakReadTime : clear implicits.
Arguments quietly : clear implicits.

(** ** Vocabulary of the further properties *)

(** Every character of the text is shell-safe. *)
Definition allSafe (s : string) : bool :=
  forallb shellSafe (list_ascii_of_string s).

(** No byte of the string is a colon. *)
Definition noColon (s : string) : bool :=
  forallb (fun c => negb (Ascii.eqb c ":"%char)) (list_ascii_of_string s).

Section MoreVocabulary.
Context {M A : Type}.

(** [t'] is [t] with other reference counts and more dirty chains. *)
Definition refcountFrame (t t' : Table M A) : Prop :=
  exists counts dirty,
    t' = set_dirtyChains dirty (set_chainRefCounts counts t)
    /\ dirtyChains t ⊆ dirty.

(** What no mutation of the desired state does: it leaves the observed
    state, the clocks and the configuration alone, it takes no chain out
    of a dirty set, and it never declares the table in sync. *)
Definition mutationFrame (t t' : Table M A) : Prop :=
  chainToDataplaneHashes t' = chainToDataplaneHashes t
  /\ chainToFullRules t' = chainToFullRules t
  /\ lastReadTime t' = lastReadTime t
  /\ lastWriteTime t' = lastWriteTime t
  /\ postWriteInterval t' = postWriteInterval t
  /\ insertMode t' = insertMode t
  /\ hashCommentPrefix t' = hashCommentPrefix t
  /\ dirtyChains t ⊆ dirtyChains t'
  /\ dirtyInsertAppend t ⊆ dirtyInsertAppend t'
  /\ (inSyncWithDataPlane t' = true -> inSyncWithDataPlane t = true).

(** The number of listings of the kernel table in a piece of trace. *)
Definition listings (evs : list Event) : nat :=
  List.length
    (List.filter (fun e => match e with EvList => true | _ => false end) evs).

(** The durations slept by the retry loop of the read, in order. *)
Definition readSleeps (evs : list Event) : list Z :=
  flat_map
    (fun e => match e with EvSleep ReadRetry d => [d] | _ => [] end) evs.

(** The durations the read sleeps for between two listings. *)
Definition readSchedule : list Z :=
  [100 * Millisecond; 200 * Millisecond; 400 * Millisecond].

(** Whether a computation panicked. *)
Definition panicked {X : Type} (r : Res X) : bool :=
  match r with Panic _ => true | Val _ => false end.

(** The table differs at most in its dirty sets, which have grown. *)
Definition dirtyMarks (t t' : Table M A) : Prop :=
  exists dirty dirtyIA,
    t' = set_dirtyInsertAppend dirtyIA (set_dirtyChains dirty t)
    /\ dirtyChains t ⊆ dirty
    /\ dirtyInsertAppend t ⊆ dirtyIA.

(** What a reload of the dataplane state leaves alone: the desired state,
    the reference counts, the configuration and the write clock; it takes
    no chain out of a dirty set. *)
Definition reloadFrame (t t' : Table M A) : Prop :=
  chainNameToChain t' = chainNameToChain t
  /\ chainToInsertedRules t' = chainToInsertedRules t
  /\ chainToAppendedRules t' = chainToAppendedRules t
  /\ chainRefCounts t' = chainRefCounts t
  /\ hashCommentPrefix t' = hashCommentPrefix t
  /\ insertMode t' = insertMode t
  /\ lastWriteTime t' = lastWriteTime t
  /\ postWriteInterval t' = postWriteInterval t
  /\ dirtyChains t ⊆ dirtyChains t'
  /\ dirtyInsertAppend t ⊆ dirtyInsertAppend t'.

(** The operations [InsertRulesNow] sends after the table declaration:
    one insertion per rule, with the fingerprint of the rule in the
    comment prefix. *)
Definition insertions {F : Type} `{!MatchCriteria M} `{!Action F A}
    (t : Table M A)
    (features : F) (chain : string) (rules : list (Rule M A))
    (hashes : list string) : list TxOp :=
  map (fun rh : Rule M A * string =>
         TxInsertRule (Render rh.1 chain (commentFrag t rh.2) features))
    (zip rules hashes).

(** The condition on which the post-write loop of [Apply] stops. *)
Definition postWriteSettled (now : Z) (t : Table M A) : Prop :=
  postWriteInterval t = 0
  \/ Hour <= postWriteInterval t
  \/ now < lastWriteTime t + postWriteInterval t.

End MoreVocabulary.

(** * Properties *)

(** ** Rendering ([rules.go]) *)
Section RulesFacts.
Context {F M A : Type} `{!MatchCriteria M} `{!Action F A} `{!Hasher}.

Lemma eqb_append_cons (a b : string) (x : ascii) :
  String.eqb (a ++ String x b) "" = false.
Proof. destruct a; reflexivity. Qed.

Lemma eqb_append_l (a b : string) :
  String.eqb a "" = false -> String.eqb (a ++ b) "" = false.
Proof. destruct a; [discriminate | reflexivity]. Qed.

(** The comment of a rendered rule: one fragment per comment line of the
    rule, each the prefix fragment, the separator and the sanitised,
    truncated line, joined by spaces; no comment at all for a rule without
    comment lines. *)
Lemma Render_comment_shape (r : Rule M A) (chain prefixFragment : string)
    (features : F) :
  kr_Comment (Render r chain prefixFragment features)
  = match Comment r with
    | [] => None
    | lines =>
        Some (Join
                (map (fun c =>
                        prefixFragment ++ "; "
                        ++ truncateComment (escapeComment c)) lines)
                " ")
    end.
Proof.
  unfold Render, comment. cbn [kr_Comment].
  destruct (Comment r) as [|c lines]; [reflexivity |].
  cbn [map]. unfold Join. cbn [String.concat].
  assert (Hfirst : forall c,
            String.eqb
              (prefixFragment ++ "; " ++ truncateComment (escapeComment c))
              "" = false)
    by (intros c'; apply eqb_append_cons).
  destruct (map _ lines) as [|l ls].
  - rewrite Hfirst. reflexivity.
  - rewrite eqb_append_l by apply Hfirst. reflexivity.
Qed.

(** C1: [Rule.comment] loses the fingerprint of a rule without comment
    lines: whatever the prefix fragment (hash prefix and fingerprint) is,
    the rendered rule has no comment at all. *)
Theorem Render_no_comment_lines_drops_fingerprint
    (m : M) (a : option A) (chain prefixFragment : string) (features : F) :
  kr_Comment (Render (mkRule m a []) chain prefixFragment features) = None.
Proof. reflexivity. Qed.

(** C8: the body of a rendered rule is the literal [counter] when the
    prefix, match and action fragments are all empty, and otherwise the
    non-empty ones among them, in this order, joined by single spaces. *)
Theorem renderInner_body (prefixFragment : string) (features : F)
    (r : Rule M A) :
  renderInner [] prefixFragment features r
  = match
      List.filter nonEmpty
        [prefixFragment; match_Render (Match r); actionFragment r features]
    with
    | [] => "counter"
    | fragments => Join fragments " "
    end.
Proof.
  unfold renderInner, actionFragment, nonEmpty.
  destruct (Action_ r) as [a|].
  - generalize (ToFragment a features) as af.
    generalize (match_Render (Match r)) as mf.
    intros [|c1 mf] [|c2 af]; destruct prefixFragment as [|c3 pf];
      reflexivity.
  - generalize (match_Render (Match r)) as mf.
    intros [|c1 mf]; destruct prefixFragment as [|c3 pf]; reflexivity.
Qed.

End RulesFacts.

(** ** The fingerprint read back from the dataplane *)

Lemma beforeColon_app_colon (a b : string) :
  (forall c, In c (list_ascii_of_string a) -> c <> ":"%char) ->
  beforeColon (a ++ String ":" b) = a.
Proof.
  induction a as [|c a IH]; intros Hno.
  - reflexivity.
  - change (beforeColon (String c (a ++ String ":" b)) = String c a).
    cbn [beforeColon].
    destruct (Ascii.eqb c ":") eqn:E.
    + apply Ascii.eqb_eq in E. exfalso.
      apply (Hno c); [left; reflexivity | exact E].
    + f_equal. apply IH. intros c' Hin. apply Hno. right. exact Hin.
Qed.

Lemma append_assoc_cons (a b c : string) (x : ascii) :
  (a ++ String x b) ++ c = a ++ String x (b ++ c).
Proof.
  induction a as [|y a IH]; [reflexivity |].
  change (String y ((a ++ String x b) ++ c)
          = String y (a ++ String x (b ++ c))).
  f_equal. exact IH.
Qed.

Lemma prefix_longer_false (a b : string) (x : ascii) :
  String.prefix (a ++ String x b) a = false.
Proof.
  induction a as [|y a IH]; [reflexivity |].
  change (String.prefix (String y (a ++ String x b)) (String y a) = false).
  cbn [String.prefix].
  destruct (ascii_dec y y); [exact IH | reflexivity].
Qed.

(** Whenever the hash prefix holds a colon, the hash read back from a rule
    the table wrote is the part of the prefix before its first colon: the
    fingerprint is lost. *)
Lemma hashOfRule_prefix_with_colon (a b fingerprint chain body : string)
    (handle : option Z) :
  (forall c, In c (list_ascii_of_string a) -> c <> ":"%char) ->
  hashOfRule (a ++ String ":" b)
    (mkKRule chain body (Some ((a ++ String ":" b) ++ fingerprint)) handle)
  = a.
Proof.
  intros Hno. unfold hashOfRule. cbn [kr_Comment].
  rewrite append_assoc_cons, (beforeColon_app_colon _ _ Hno).
  unfold TrimPrefix. rewrite prefix_longer_false. reflexivity.
Qed.

(** C3: with the hash prefix [cali:], the hash read back from a rule that
    the table wrote (comment [cali:] followed by the fingerprint) is the
    text [cali], whatever the fingerprint; a comment without the prefix is
    read back whole, not as the empty string; only a rule without comment
    reads as the empty string. *)
Theorem hashOfRule_colon_prefix
    (chain body fingerprint : string) (handle : option Z) :
  hashOfRule "cali:"
    (mkKRule chain body (Some ("cali:" ++ fingerprint)) handle) = "cali"
  /\ hashOfRule "cali:" (mkKRule chain body (Some "foreign") handle)
     = "foreign"
  /\ hashOfRule "cali:" (mkKRule chain body None handle) = "".
Proof. repeat split. Qed.

(** ** The table of the examples *)

Lemma freshTable_is_new :
  NewTable "cali-filter" 4 "cali:" Demo.demoOptions 0 = Val Demo.freshTable.
Proof. vm_compute. reflexivity. Qed.

(** ** Invalidation of the dataplane cache *)
Section InvalidateFacts.
Context {M A : Type}.

(** C10: [InvalidateDataplaneCache] leaves [inSyncWithDataPlane] false; it
    stores the given reason when the table was in sync and keeps the stored
    one when it was not; a second call changes nothing; no field but
    [inSyncWithDataPlane] and [reason] is ever changed. *)
Theorem InvalidateDataplaneCache_idempotent_narrow
    (reason1 reason2 : string) (t : Table M A) :
  let t1 := InvalidateDataplaneCache reason1 t in
  inSyncWithDataPlane t1 = false
  /\ reason t1 = (if inSyncWithDataPlane t then reason1 else reason t)
  /\ InvalidateDataplaneCache reason2 t1 = t1
  /\ t1 = set_reason (reason t1)
            (set_inSyncWithDataPlane (inSyncWithDataPlane t1) t).
Proof.
  destruct t as [? ? ? ? ? ? ? ? sync ? ? ? ? ? ? ? ? ? ? ? ? ? ?].
  destruct sync; repeat split.
Qed.

End InvalidateFacts.

(** C10, as stated, fails on a table that is already out of sync, as every
    new table is: the call does not store its reason. *)
Lemma InvalidateDataplaneCache_keeps_old_reason :
  inSyncWithDataPlane Demo.freshTable = false
  /\ reason (InvalidateDataplaneCache "refresh timer" Demo.freshTable)
     <> "refresh timer".
Proof. split; [reflexivity | vm_compute; discriminate]. Qed.

(** ** Reference counts *)

(** C5: three public mutations take a new table to a state that stores the
    count -1 for chain [B]: rules that jump to [B] are hooked into chain
    [X] while [X] is unreferenced, [X] becomes referenced, and the rules
    are taken out again. No call runs out of fuel. *)
Theorem refcount_negative_after_mutations :
  exists t0 t : Table string Demo.DemoAction,
    NewTable "cali-filter" 4 "cali:" Demo.demoOptions 0 = Val t0
    /\ mutations 2
         [MInsertOrAppendRules "X" [Demo.jumpTo "B"];
          MInsertOrAppendRules "FORWARD" [Demo.jumpTo "X"];
          MInsertOrAppendRules "X" []]
         t0 = Some t
    /\ chainRefCounts t !! "B" = Some (-1).
Proof.
  eexists. eexists. split; [vm_compute; reflexivity |].
  split; vm_compute; reflexivity.
Qed.

(** ** The rule updates of a fully owned chain *)
Section UpdateFacts.
Context {F M A : Type} `{!MatchCriteria M} `{!Action F A} `{!Hasher}
  `{!Regexp}.

Lemma foldRes_app {S X : Type} (f : S -> X -> Res S) (l1 l2 : list X)
    (s : S) :
  foldRes f (l1 ++ l2)%list s = (s' ← foldRes f l1 s; foldRes f l2 s').
Proof.
  revert s. induction l1 as [|x l1 IH]; intros s; cbn.
  - reflexivity.
  - destruct (f s x) as [s'|msg]; cbn; [apply IH | reflexivity].
Qed.

Lemma index_out_of_range {X : Type} (l : list X) (i : nat) :
  (List.length l <= i)%nat -> index l i = Panic "index out of range".
Proof.
  intros Hle. unfold index. rewrite (lookup_ge_None_2 l i Hle). reflexivity.
Qed.

Lemma seq_split_at (n m : nat) :
  (m < n)%nat -> seq 0 n = (seq 0 m ++ m :: seq (S m) (n - S m))%list.
Proof.
  intros Hlt. remember (n - S m)%nat as k eqn:Ek.
  assert (n = m + S k)%nat as -> by lia.
  rewrite seq_app. reflexivity.
Qed.

(** The round of the loop at the first position past the current hashes
    reads [currentHashes[i]] out of range. *)
Lemma ruleUpdate_past_current (t : Table M A) (features : F)
    (chainName : string) (chain : Chain M A)
    (previousHashes currentHashes : list string) (tx : list TxOp) :
  (List.length currentHashes < List.length previousHashes)%nat ->
  ruleUpdate t features chainName chain previousHashes currentHashes tx
    (List.length currentHashes) = Panic "index out of range".
Proof.
  intros Hlt. unfold ruleUpdate.
  rewrite (proj2 (Nat.ltb_lt _ _) Hlt), Nat.ltb_irrefl. cbn [andb].
  rewrite (index_out_of_range currentHashes) by lia. reflexivity.
Qed.

(** C2: when the previous hash list of a dirty chain is longer than the
    newly computed one, the loop over the rule positions does not get to
    delete anything: it panics, at the latest on reading the current hash
    list at the first index that only the previous list has. *)
Theorem ruleUpdates_previous_longer_panics (t : Table M A) (features : F)
    (chainName : string) (chain : Chain M A)
    (previousHashes currentHashes : list string) (tx : list TxOp) :
  (List.length currentHashes < List.length previousHashes)%nat ->
  exists msg,
    ruleUpdates t features chainName chain previousHashes currentHashes tx
    = Panic msg.
Proof.
  intros Hlt. unfold ruleUpdates.
  rewrite Nat.max_l by lia.
  rewrite (seq_split_at _ _ Hlt), foldRes_app.
  destruct (foldRes _ (seq 0 (List.length currentHashes)) tx) as [tx'|msg].
  - cbn. rewrite ruleUpdate_past_current by exact Hlt.
    eexists. reflexivity.
  - eexists. reflexivity.
Qed.

End UpdateFacts.

(** C2 on a chain of one rule of which the dataplane holds two. *)
Lemma ruleUpdates_previous_longer_example :
  (List.length ["h0"] < List.length ["h0"; "h1"])%nat
  /\ exists msg,
       ruleUpdates Demo.freshTable tt "cali-x"
         (mkChain "cali-x" [mkRule "" (Some (Demo.Verdict "accept")) []])
         ["h0"; "h1"] ["h0"] [] = Panic msg.
Proof.
  split; [cbn; lia |].
  apply (ruleUpdates_previous_longer_panics Demo.freshTable tt "cali-x"
           (mkChain "cali-x" [mkRule "" (Some (Demo.Verdict "accept")) []])
           ["h0"; "h1"] ["h0"] []).
  cbn; lia.
Defined.

(** The same at the level of [Apply]: the table is asked for chain [cali-x]
    with one rule, the kernel holds two rules in it, and [Apply] panics on
    the index instead of deleting the second rule. *)
Lemma Apply_panics_on_shrunk_chain :
  exists t t' w',
    mutations 2
      [MInsertOrAppendRules "FORWARD" [Demo.jumpTo "cali-x"];
       MUpdateChain
         (mkChain "cali-x" [mkRule "" (Some (Demo.Verdict "accept")) []])]
      Demo.freshTable = Some t
    /\ Apply t Demo.twoRulesWorld = (Panic "index out of range", t', w').
Proof.
  eexists. eexists. eexists.
  split; [vm_compute; reflexivity |].
  vm_compute. reflexivity.
Qed.

(** ** Expected hashes of a hook chain *)
Section ExpectedFacts.
Context {F M A : Type} `{!MatchCriteria M} `{!Action F A} `{!Hasher}
  `{!Regexp}.

Lemma length_ruleHashesFrom (name : string) (features : F) (hash : string)
    (rules : list (Rule M A)) :
  List.length (ruleHashesFrom name features hash rules) = List.length rules.
Proof.
  revert hash. induction rules as [|r rules IH]; intros hash; cbn.
  - reflexivity.
  - f_equal. apply IH.
Qed.

Lemma length_CalculateRuleHashes (chainName : string)
    (rules : list (Rule M A)) (features : F) :
  List.length (CalculateRuleHashes chainName rules features)
  = List.length rules.
Proof. apply length_ruleHashesFrom. Qed.

(** Storing [hashes] over a run of empty slots that starts [offset] places
    into the list fills the run and touches nothing else. *)
Lemma storeHashes_fill (offset : nat)
    (hashes written before after : list string) :
  List.length before = offset ->
  storeHashes (List.length written) offset hashes
    (before ++ written ++ replicate (List.length hashes) "" ++ after)%list
  = Val (before ++ (written ++ hashes) ++ after)%list.
Proof.
  intros Hoff. revert written.
  induction hashes as [|hash hashes IH]; intros written.
  - cbn. rewrite app_nil_r. reflexivity.
  - cbn [storeHashes List.length replicate]. unfold store.
    rewrite decide_True
      by (rewrite !length_app; cbn [List.length]; lia).
    cbn.
    replace (<[(List.length written + offset)%nat:=hash]>
               (before ++ written
                ++ "" :: replicate (List.length hashes) "" ++ after)%list)
      with (before ++ (written ++ [hash])
            ++ replicate (List.length hashes) "" ++ after)%list.
    + replace (S (List.length written))
        with (List.length (written ++ [hash])%list)
        by (rewrite length_app; cbn; lia).
      rewrite IH. rewrite <- !app_assoc. reflexivity.
    + rewrite insert_app_r_alt by lia.
      rewrite insert_app_r_alt by lia.
      replace (List.length written + offset - List.length before
               - List.length written)%nat with 0%nat by lia.
      cbn. rewrite <- !app_assoc. reflexivity.
Qed.

(** C6: [expectedHashesForInsertAppendChain] returns; its inserted hashes
    are the rule hashes of the inserted rules under the chain name, its
    appended hashes those of the appended rules under the chain name
    followed by [*appends*]; the list of all hashes has one entry per
    inserted, appended and foreign rule: in append mode the empty strings
    of the foreign rules, the inserted hashes, the appended hashes, and
    otherwise (insert mode) the inserted hashes, the empty strings, the
    appended hashes. *)
Theorem expectedHashesForInsertAppendChain_layout (t : Table M A)
    (features : F) (chainName : string) (numNonCalicoRules : nat) :
  let insertedRules := default [] (chainToInsertedRules t !! chainName) in
  let appendedRules := default [] (chainToAppendedRules t !! chainName) in
  let inserted := CalculateRuleHashes chainName insertedRules features in
  let appended :=
    CalculateRuleHashes (chainName ++ "*appends*") appendedRules features in
  let all :=
    if String.eqb (insertMode t) "append"
    then (replicate numNonCalicoRules "" ++ inserted ++ appended)%list
    else (inserted ++ replicate numNonCalicoRules "" ++ appended)%list in
  expectedHashesForInsertAppendChain t features chainName numNonCalicoRules
  = Val (all, inserted, appended)
  /\ List.length all
     = (List.length insertedRules + List.length appendedRules
        + numNonCalicoRules)%nat
  /\ List.length inserted = List.length insertedRules
  /\ List.length appended = List.length appendedRules.
Proof.
  intros insertedRules appendedRules inserted appended all.
  assert (Hli : List.length inserted = List.length insertedRules)
    by apply length_CalculateRuleHashes.
  assert (Hla : List.length appended = List.length appendedRules)
    by apply length_CalculateRuleHashes.
  split; [| split; [| split; assumption]].
  - unfold expectedHashesForInsertAppendChain.
    fold insertedRules appendedRules.
    replace (if (0 <? List.length insertedRules)%nat
             then CalculateRuleHashes chainName insertedRules features
             else []) with inserted
      by (subst inserted; destruct insertedRules; reflexivity).
    replace (if (0 <? List.length appendedRules)%nat
             then CalculateRuleHashes (chainName ++ "*appends*")
                    appendedRules features
             else []) with appended
      by (subst appended; destruct appendedRules; reflexivity).
    rewrite <- Hli, <- Hla. subst all.
    destruct (String.eqb (insertMode t) "append").
    + replace (replicate
                 (List.length inserted + List.length appended
                  + numNonCalicoRules) "")
        with (replicate numNonCalicoRules "" ++ []
              ++ replicate (List.length inserted) ""
              ++ replicate (List.length appended) "")%list
        by (cbn [app]; rewrite <- !replicate_add; f_equal; lia).
      rewrite (storeHashes_fill numNonCalicoRules inserted [])
        by apply length_replicate.
      cbn [res_bind mbind app].
      replace (replicate numNonCalicoRules "" ++ inserted
               ++ replicate (List.length appended) "")%list
        with ((replicate numNonCalicoRules "" ++ inserted) ++ []
              ++ replicate (List.length appended) "" ++ [])%list
        by (cbn [app]; rewrite app_nil_r, <- app_assoc; reflexivity).
      rewrite (storeHashes_fill
                 (List.length inserted + numNonCalicoRules) appended [])
        by (rewrite length_app, length_replicate; lia).
      cbn [res_bind mbind app]. rewrite app_nil_r, <- app_assoc.
      reflexivity.
    + replace (replicate
                 (List.length inserted + List.length appended
                  + numNonCalicoRules) "")
        with ([] ++ [] ++ replicate (List.length inserted) ""
              ++ replicate numNonCalicoRules ""
              ++ replicate (List.length appended) "")%list
        by (cbn [app]; rewrite <- !replicate_add; f_equal; lia).
      rewrite (storeHashes_fill 0 inserted []) by reflexivity.
      cbn [res_bind mbind app].
      replace (inserted ++ replicate numNonCalicoRules ""
               ++ replicate (List.length appended) "")%list
        with ((inserted ++ replicate numNonCalicoRules "") ++ []
              ++ replicate (List.length appended) "" ++ [])%list
        by (cbn [app]; rewrite app_nil_r, <- app_assoc; reflexivity).
      rewrite (storeHashes_fill
                 (List.length inserted + numNonCalicoRules) appended [])
        by (rewrite length_app, length_replicate; lia).
      cbn [res_bind mbind app]. rewrite app_nil_r, <- app_assoc.
      reflexivity.
  - subst all. rewrite <- Hli, <- Hla.
    destruct (String.eqb (insertMode t) "append");
      rewrite !length_app, length_replicate; lia.
Qed.

End ExpectedFacts.

(** ** The post-write interval loop ends *)
Section PostWriteFacts.
Context {M A : Type}.

Lemma wrap64_range (z : Z) : - 2 ^ 63 <= wrap64 z < 2 ^ 63.
Proof.
  unfold wrap64.
  pose proof (Z.mod_pos_bound (z + 2 ^ 63) (2 ^ 64) ltac:(lia)). lia.
Qed.

Lemma wrap64_divide (k : nat) (z : Z) :
  (k <= 64)%nat -> (2 ^ Z.of_nat k | z) -> (2 ^ Z.of_nat k | wrap64 z).
Proof.
  intros Hk Hz. unfold wrap64.
  rewrite Z.mod_eq by lia.
  replace (z + 2 ^ 63 - 2 ^ 64 * ((z + 2 ^ 63) / 2 ^ 64) - 2 ^ 63)
    with (z - 2 ^ 64 * ((z + 2 ^ 63) / 2 ^ 64)) by lia.
  apply Z.divide_sub_r; [exact Hz |].
  apply Z.divide_mul_l.
  exists (2 ^ (64 - Z.of_nat k)).
  rewrite <- Z.pow_add_r by lia. f_equal. lia.
Qed.

Lemma InvalidateDataplaneCache_postWriteInterval (reason : string)
    (t : Table M A) :
  postWriteInterval (InvalidateDataplaneCache reason t) = postWriteInterval t.
Proof.
  unfold InvalidateDataplaneCache.
  destruct (inSyncWithDataPlane t); reflexivity.
Qed.

(** After [k] rounds the interval is a multiple of [2 ^ k] within the
    64-bit range, so the 65th test of the loop condition finds it 0. *)
Lemma postWriteLoop_fuel (fuel k : nat) (now : Z) (invalidated : bool)
    (t : Table M A) :
  (65 <= fuel + k)%nat -> (k <= 64)%nat ->
  (2 ^ Z.of_nat k | postWriteInterval t) ->
  ((1 <= k)%nat -> - 2 ^ 63 <= postWriteInterval t < 2 ^ 63) ->
  is_Some (postWriteLoop fuel now invalidated t).
Proof.
  revert k invalidated t.
  induction fuel as [|fuel IH]; intros k invalidated t Hfuel Hk Hdiv Hrange.
  - lia.
  - cbn [postWriteLoop].
    destruct (negb (postWriteInterval t =? 0)) eqn:Hnz; cbn [andb];
      [| eexists; reflexivity].
    match goal with |- context [if ?c then _ else _] => destruct c end;
      [| eexists; reflexivity].
    apply negb_true_iff, Z.eqb_neq in Hnz.
    assert (k < 64)%nat as Hlt.
    { destruct (decide (k = 64%nat)) as [->|]; [| lia].
      exfalso. apply Hnz. destruct Hdiv as [c Hc].
      specialize (Hrange ltac:(lia)).
      change (2 ^ Z.of_nat 64) with 18446744073709551616 in Hc.
      change (2 ^ 63) with 9223372036854775808 in Hrange. lia. }
    assert (Hdiv' : (2 ^ Z.of_nat (S k)
                     | wrap64 (postWriteInterval t * 2))).
    { apply wrap64_divide; [lia |].
      rewrite Nat2Z.inj_succ, Z.pow_succ_r by lia.
      rewrite (Z.mul_comm 2). apply Z.mul_divide_mono_r. exact Hdiv. }
    destruct (negb invalidated).
    + apply (IH (S k)); [lia | lia | |].
      * rewrite InvalidateDataplaneCache_postWriteInterval. exact Hdiv'.
      * intros _. rewrite InvalidateDataplaneCache_postWriteInterval.
        apply wrap64_range.
    + apply (IH (S k)); [lia | lia | exact Hdiv' |].
      intros _. apply wrap64_range.
Qed.

(** The loop of [Apply] never outlasts its 65 rounds. *)
Lemma postWriteLoop_terminates (now : Z) (invalidated : bool)
    (t : Table M A) :
  is_Some (postWriteLoop 65 now invalidated t).
Proof.
  apply (postWriteLoop_fuel 65 0); [lia | lia | | lia].
  exists (postWriteInterval t). cbn. lia.
Qed.

End PostWriteFacts.

(** ** Reasoning about the methods of the table *)
Section ProgFacts.
Context {F M A : Type} `{!MatchCriteria M} `{!Action F A} `{!Hasher}
  `{!Regexp}.

#[local] Abbreviation State := (Table M A * World F)%type.

Lemma run_bind {X Y : Type} (c : Prog X) (k : X -> Prog Y)
    (t : Table M A) (w : World F) :
  (c ≫= k) t w
  = match c t w with
    | (Val x, t', w') => k x t' w'
    | (Panic msg, t', w') => (Panic msg, t', w')
    end.
Proof. reflexivity. Qed.

Lemma run_bind_val {X Y : Type} (c : Prog X) (k : X -> Prog Y)
    (t t' : Table M A) (w w' : World F) (y : Y) :
  (c ≫= k) t w = (Val y, t', w') ->
  exists x t1 w1, c t w = (Val x, t1, w1) /\ k x t1 w1 = (Val y, t', w').
Proof.
  rewrite run_bind. destruct (c t w) as [[[x|msg] t1] w1]; intros E.
  - exists x, t1, w1. split; [reflexivity | exact E].
  - discriminate.
Qed.

Section Stable.
Context (R : State -> State -> Prop) `{!PreOrder R}.

Lemma stable_ret {X : Type} (x : X) : stable R (mret x).
Proof. intros t w. cbn. reflexivity. Qed.

Lemma stable_panic {X : Type} (msg : string) :
  stable R (panic msg : Prog X).
Proof. intros t w. cbn. reflexivity. Qed.

Lemma stable_liftRes {X : Type} (r : Res X) : stable R (liftRes r).
Proof. intros t w. cbn. reflexivity. Qed.

Lemma stable_getTable : stable R getTable.
Proof. intros t w. cbn. reflexivity. Qed.

Lemma stable_GetFeatures : stable R GetFeatures.
Proof. intros t w. cbn. reflexivity. Qed.

Lemma stable_bind {X Y : Type} (c : Prog X) (k : X -> Prog Y) :
  stable R c -> (forall x, stable R (k x)) -> stable R (c ≫= k).
Proof.
  intros Hc Hk t w. rewrite run_bind.
  specialize (Hc t w). destruct (c t w) as [[[x|msg] t1] w1]; cbn in Hc.
  - etransitivity; [exact Hc | apply Hk].
  - exact Hc.
Qed.

End Stable.

End ProgFacts.

(** Running the primitives of a method. *)
Ltac run_prims :=
  cbn [RefreshFeatures emit timeNow modTable getTable putTable GetFeatures
       liftRes panic mret prog_ret nftList nftRun onStillAlive timeSleep
       clock ticks kernelReads reads kernelRuns runs detected refreshes
       trace].

(** Inversion of a run of a primitive. *)
Ltac prim_inv E :=
  cbv [RefreshFeatures emit timeNow modTable getTable putTable GetFeatures
       liftRes panic mret prog_ret mbind prog_bind nftList nftRun
       onStillAlive timeSleep]
    in E;
  first [discriminate E | injection E; clear E; intros; subst].

(** ** Reading the dataplane changes one field *)
Section ReadFacts.
Context {F M A : Type} `{!MatchCriteria M} `{!Action F A} `{!Hasher}
  `{!Regexp}.

#[local] Abbreviation State := (Table M A * World F)%type.

#[local] Instance onlyPeakReadTime_preorder :
  PreOrder (onlyPeakReadTime F M A).
Proof.
  split.
  - intros [t w]. exists (peakNftablesReadTime t). destruct t; reflexivity.
  - intros [t1 w1] [t2 w2] [t3 w3] [v Hv] [v' Hv']. cbn in *.
    exists v'. rewrite Hv', Hv. reflexivity.
Qed.

Lemma attempt_onlyPeakReadTime :
  stable (onlyPeakReadTime F M A) attemptToGetHashesAndRulesFromDataplane.
Proof. intros t w. eexists. reflexivity. Qed.

Lemma emit_onlyPeakReadTime (e : Event) :
  stable (onlyPeakReadTime F M A) (emit e).
Proof.
  intros t w. exists (peakNftablesReadTime t). destruct t; reflexivity.
Qed.

Lemma getHashesAndRulesLoop_onlyPeakReadTime (retries : nat)
    (retryDelay : Z) :
  stable (onlyPeakReadTime F M A) (getHashesAndRulesLoop retries retryDelay).
Proof.
  revert retryDelay. induction retries as [|retries IH]; intros retryDelay;
    cbn [getHashesAndRulesLoop];
    (apply stable_bind; [apply _ | apply emit_onlyPeakReadTime | intros _]);
    (apply stable_bind;
       [apply _ | apply attempt_onlyPeakReadTime | intros [hr|]]);
    try (apply stable_ret; apply _).
  - apply stable_panic; apply _.
  - apply stable_bind; [apply _ | apply emit_onlyPeakReadTime | intros _].
    apply IH.
Qed.

Lemma getHashesAndRulesFromDataplane_onlyPeakReadTime :
  stable (onlyPeakReadTime F M A) getHashesAndRulesFromDataplane.
Proof. apply getHashesAndRulesLoop_onlyPeakReadTime. Qed.

(** The read returns what the kernel lists when the first listing
    succeeds. *)
Lemma getHashesAndRulesFromDataplane_first_read (t : Table M A)
    (w : World F) chains hashesAndRules :
  kernelReads w (reads w) = Listed chains ->
  hashesAndRulesOf (hashCommentPrefix t) chains ∅ ∅ = Some hashesAndRules ->
  (getHashesAndRulesFromDataplane t w).1.1 = Val hashesAndRules.
Proof.
  intros Hread Hlisted.
  unfold getHashesAndRulesFromDataplane. cbn [getHashesAndRulesLoop].
  unfold attemptToGetHashesAndRulesFromDataplane.
  do 7 (rewrite run_bind; run_prims).
  rewrite Hread, Hlisted. reflexivity.
Qed.

Lemma presentRules_spec (observed hashes : list string) (i : nat)
    (rules present : list (Rule M A)) :
  List.length hashes = (i + List.length rules)%nat ->
  presentRules (list_to_set observed) hashes i rules present
  = Val (present ++ presentAmong observed rules (drop i hashes))%list.
Proof.
  revert i present. induction rules as [|r rules IH]; intros i present Hlen.
  - cbn. unfold presentAmong. cbn. rewrite app_nil_r. reflexivity.
  - cbn [presentRules List.length] in *.
    destruct (lookup_lt_is_Some_2 hashes i) as [h Hh]; [lia |].
    unfold index. rewrite Hh. cbn [mbind res_bind].
    rewrite IH by lia.
    rewrite (drop_S _ _ _ Hh). unfold presentAmong. cbn [zip zip_with].
    destruct (decide (h ∈ observed)) as [Hin|Hout].
    + rewrite bool_decide_eq_true_2 by (apply elem_of_list_to_set; exact Hin).
      rewrite filter_cons_True by exact Hin.
      cbn [fmap list_fmap fst]. rewrite <- app_assoc. reflexivity.
    + rewrite bool_decide_eq_false_2
        by (rewrite elem_of_list_to_set; exact Hout).
      rewrite filter_cons_False by exact Hout. reflexivity.
Qed.

(** C9: [CheckRulesPresent] reads the dataplane once (with the retries of
    the read) and does nothing else to the table or the world. The caches
    of the desired and of the observed state, the dirty sets,
    [inSyncWithDataPlane] and [lastReadTime] are as before. It panics
    exactly when the read does; otherwise it returns the input rules whose
    hash is among the hashes observed in the chain, in input order. *)
Theorem CheckRulesPresent_frame_and_result (chain : string)
    (rules : list (Rule M A)) (t : Table M A) (w : World F) :
  let '(read, t1, w1) := getHashesAndRulesFromDataplane t w in
  let '(r, t', w') := CheckRulesPresent chain rules t w in
  t' = t1 /\ w' = w1
  /\ chainNameToChain t' = chainNameToChain t
  /\ chainToInsertedRules t' = chainToInsertedRules t
  /\ chainToAppendedRules t' = chainToAppendedRules t
  /\ chainRefCounts t' = chainRefCounts t
  /\ dirtyChains t' = dirtyChains t
  /\ dirtyInsertAppend t' = dirtyInsertAppend t
  /\ chainToDataplaneHashes t' = chainToDataplaneHashes t
  /\ chainToFullRules t' = chainToFullRules t
  /\ inSyncWithDataPlane t' = inSyncWithDataPlane t
  /\ lastReadTime t' = lastReadTime t
  /\ r = match read with
         | Val (dpHashes, _) =>
             Val (presentAmong (default [] (dpHashes !! chain)) rules
                    (CalculateRuleHashes chain rules
                       (detected w (refreshes w))))
         | Panic msg => Panic msg
         end.
Proof.
  pose proof (getHashesAndRulesFromDataplane_onlyPeakReadTime t w) as Hframe.
  unfold CheckRulesPresent. rewrite run_bind. cbn [GetFeatures].
  rewrite run_bind.
  destruct (getHashesAndRulesFromDataplane t w) as [[read t1] w1].
  destruct Hframe as [v Hv]. cbn in Hv. subst t1.
  destruct read as [[dpHashes dpRules]|msg].
  - cbn [liftRes].
    rewrite presentRules_spec
      by (rewrite length_CalculateRuleHashes; reflexivity).
    cbn [drop app]. repeat split.
  - repeat split.
Qed.

End ReadFacts.

(** ** The trace of [Apply] *)
Section TraceFacts.
Context {F M A : Type} `{!MatchCriteria M} `{!Action F A} `{!Hasher}
  `{!Regexp}.

#[local] Abbreviation State := (Table M A * World F)%type.

#[local] Instance quietly_preorder :
  PreOrder (quietly F M A).
Proof.
  split.
  - intros [t w]. exists []. split; [symmetry; apply app_nil_r | constructor].
  - intros [t1 w1] [t2 w2] [t3 w3] [n1 [E1 Q1]] [n2 [E2 Q2]]. cbn in *.
    exists (n1 ++ n2)%list. cbn. split.
    + rewrite E2, E1, app_assoc. reflexivity.
    + apply Forall_app. split; assumption.
Qed.

Lemma quietly_same_trace (t t' : Table M A) (w w' : World F) :
  trace w' = trace w -> quietly F M A (t, w) (t', w').
Proof.
  intros E. exists []. cbn. rewrite E.
  split; [symmetry; apply app_nil_r | constructor].
Qed.

Lemma quietly_emit (e : Event) :
  isQuiet e = true -> stable (quietly F M A) (emit e).
Proof.
  intros Q t w. exists [e]. split; [reflexivity | repeat constructor; exact Q].
Qed.

Lemma quietly_timeNow : stable (quietly F M A) timeNow.
Proof. intros t w. apply quietly_same_trace. reflexivity. Qed.

Lemma quietly_putTable (t' : Table M A) : stable (quietly F M A) (putTable t').
Proof. intros t w. apply quietly_same_trace. reflexivity. Qed.

Lemma quietly_modTable (f : Table M A -> Table M A) :
  stable (quietly F M A) (modTable f).
Proof. intros t w. apply quietly_same_trace. reflexivity. Qed.

Lemma quietly_RefreshFeatures : stable (quietly F M A) RefreshFeatures.
Proof.
  intros t w. exists [EvRefreshFeatures].
  split; [reflexivity | repeat constructor].
Qed.

Lemma quietly_nftList : stable (quietly F M A) nftList.
Proof.
  intros t w. exists [EvList]. split; [reflexivity | repeat constructor].
Qed.

Lemma quietly_nftRun (tx : list TxOp) : stable (quietly F M A) (nftRun tx).
Proof.
  intros t w. exists [EvRun tx]. split; [reflexivity | repeat constructor].
Qed.

(** One step of a proof that a method is quiet. *)
Ltac quiet_step :=
  first
    [ apply stable_ret; apply _
    | apply stable_panic; apply _
    | apply stable_liftRes; apply _
    | apply stable_getTable; apply _
    | apply stable_GetFeatures; apply _
    | apply quietly_timeNow
    | apply quietly_putTable
    | apply quietly_modTable
    | apply quietly_RefreshFeatures
    | apply quietly_nftList
    | apply quietly_nftRun
    | apply quietly_emit; reflexivity
    | apply stable_bind; [apply _ | | intros ?]
    | match goal with
      | |- stable _ (match ?x with _ => _ end) => destruct x
      end ].

Lemma quietly_attempt :
  stable (quietly F M A) attemptToGetHashesAndRulesFromDataplane.
Proof. unfold attemptToGetHashesAndRulesFromDataplane. repeat quiet_step. Qed.

Lemma quietly_getHashesAndRulesLoop (retries : nat) (retryDelay : Z) :
  stable (quietly F M A) (getHashesAndRulesLoop retries retryDelay).
Proof.
  revert retryDelay. induction retries as [|retries IH]; intros retryDelay;
    cbn [getHashesAndRulesLoop]; unfold onStillAlive, timeSleep.
  - apply stable_bind; [apply _ | quiet_step |intros _].
    apply stable_bind; [apply _ | apply quietly_attempt | intros [hr|]];
      quiet_step.
  - apply stable_bind; [apply _ | quiet_step |intros _].
    apply stable_bind; [apply _ | apply quietly_attempt | intros [hr|]];
      [quiet_step |].
    apply stable_bind; [apply _ | quiet_step | intros _]. apply IH.
Qed.

Lemma quietly_loadDataplaneState : stable (quietly F M A) loadDataplaneState.
Proof.
  unfold loadDataplaneState.
  do 4 (apply stable_bind; [apply _ | quiet_step | intros ?]).
  apply stable_bind;
    [apply _ | apply quietly_getHashesAndRulesLoop | intros [? ?]].
  repeat quiet_step.
Qed.

Lemma quietly_commitTransaction (tx : list TxOp) :
  stable (quietly F M A) (commitTransaction tx).
Proof. unfold commitTransaction. repeat quiet_step. Qed.

Lemma quietly_applyUpdatesBody : stable (quietly F M A) applyUpdatesBody.
Proof.
  unfold applyUpdatesBody.
  do 2 (apply stable_bind; [apply _ | quiet_step | intros ?]).
  apply stable_bind; [apply _ | quiet_step | intros [[? ?] ?]].
  apply stable_bind;
    [apply _ | apply quietly_commitTransaction | intros [e|]];
    [quiet_step |].
  do 2 (apply stable_bind; [apply _ | quiet_step | intros ?]).
  apply stable_bind;
    [apply _ | apply quietly_loadDataplaneState | intros ?].
  quiet_step.
Qed.

(** A call of [applyUpdates] adds its mark and quiet events. *)
Lemma applyUpdates_trace (t : Table M A) (w : World F) :
  exists new,
    trace (applyUpdates t w).2
    = (trace w ++ EvApplyUpdates :: new)%list
    /\ Forall (fun e => isQuiet e = true) new.
Proof.
  unfold applyUpdates. rewrite run_bind. cbn [emit].
  match goal with
  | |- context [applyUpdatesBody t ?w0] =>
      destruct (quietly_applyUpdatesBody t w0) as [new [E Q]]
  end.
  cbn in E. exists new. split; [| exact Q].
  rewrite E, <- app_assoc. reflexivity.
Qed.

(** A transaction that fails leaves the table as it was. *)
Lemma commitTransaction_failure (tx : list TxOp) (t t' : Table M A)
    (w w' : World F) (e : string) :
  commitTransaction tx t w = (Val (Some e), t', w') -> t' = t.
Proof.
  unfold commitTransaction. destruct (List.length tx =? 0)%nat.
  - intros E. prim_inv E.
  - rewrite run_bind. run_prims. rewrite run_bind. run_prims.
    destruct (kernelRuns w (runs w)) as [err|]; intros E.
    + prim_inv E. reflexivity.
    + prim_inv E.
Qed.


Lemma applyUpdatesBody_failure (t t' : Table M A) (w w' : World F)
    (e : string) :
  applyUpdatesBody t w = (Val (Some e), t', w') -> t' = t.
Proof.
  unfold applyUpdatesBody. intros E.
  apply run_bind_val in E as (features & ? & ? & E1 & E). prim_inv E1.
  apply run_bind_val in E as (t0 & ? & ? & E1 & E). prim_inv E1.
  apply run_bind_val in E as ([[tx nh] nf] & ? & ? & E1 & E). prim_inv E1.
  apply run_bind_val in E as (failure & ? & ? & E1 & E).
  destruct failure as [e0|].
  - prim_inv E. eapply commitTransaction_failure. exact E1.
  - apply run_bind_val in E as (? & ? & ? & _ & E).
    apply run_bind_val in E as (? & ? & ? & _ & E).
    apply run_bind_val in E as (? & ? & ? & _ & E).
    prim_inv E.
Qed.

(** A reload that returns has read the dataplane: the observed caches are
    what it read, and the table is in sync. *)
Lemma loadDataplaneState_success (t t' : Table M A) (w w' : World F) :
  loadDataplaneState t w = (Val tt, t', w') ->
  inSyncWithDataPlane t' = true
  /\ exists (wa wb : World F) (tb : Table M A) dpHashes dpRules,
       getHashesAndRulesFromDataplane
         (set_lastReadTime (clock w (ticks w)) t) wa
       = (Val (dpHashes, dpRules), tb, wb)
       /\ chainToDataplaneHashes t' = dpHashes
       /\ chainToFullRules t' = dpRules.
Proof.
  unfold loadDataplaneState. intros E.
  apply run_bind_val in E as (? & ? & ? & E1 & E). prim_inv E1.
  apply run_bind_val in E as (? & ? & ? & E1 & E). prim_inv E1.
  apply run_bind_val in E as (now & ? & ? & E1 & E). prim_inv E1.
  apply run_bind_val in E as (? & ? & ? & E1 & E). prim_inv E1.
  apply run_bind_val in E as ([dpHashes dpRules] & tb & wb & Eread & E).
  apply run_bind_val in E as (features & ? & ? & E1 & E). prim_inv E1.
  apply run_bind_val in E as (t0 & ? & ? & E1 & E). prim_inv E1.
  apply run_bind_val in E as (t2 & ? & ? & E1 & E). prim_inv E1.
  prim_inv E.
  split; [reflexivity |].
  do 5 eexists.
  split; [exact Eread | split; reflexivity].
Qed.

(** *** Counting the attempts *)

Lemma attempts_app (a b : list Event) :
  attempts (a ++ b) = (attempts a + attempts b)%nat.
Proof. unfold attempts. rewrite List.filter_app, length_app. reflexivity. Qed.

Lemma backoffs_app (a b : list Event) :
  backoffs (a ++ b) = (backoffs a ++ backoffs b)%list.
Proof. apply flat_map_app. Qed.

Lemma diagnosed_app (a b : list Event) :
  diagnosed (a ++ b) = diagnosed a || diagnosed b.
Proof. apply existsb_app. Qed.

Lemma quiet_summary (evs : list Event) :
  Forall (fun e => isQuiet e = true) evs ->
  attempts evs = 0%nat /\ backoffs evs = [] /\ diagnosed evs = false.
Proof.
  induction 1 as [|e evs Q _ (IHa & IHb & IHd)]; [repeat split |].
  unfold attempts, backoffs, diagnosed in *.
  destruct e as [| | | | | |[] d|]; try discriminate Q; cbn; auto.
Qed.

(** The retry loop: it calls [applyUpdates] at most once more than it has
    retries, at least once when the table is in sync, it sleeps between
    two calls for durations that double, and it gathers diagnostics only
    after the last of all these calls, and then panics. *)
Lemma applyLoop_trace (retries : nat) (backoffTime : Z) (t : Table M A)
    (w : World F) :
  exists new,
    trace (applyLoop retries backoffTime t w).2 = (trace w ++ new)%list
    /\ (attempts new <= S retries)%nat
    /\ backoffs new = doubling backoffTime (attempts new - 1)
    /\ (inSyncWithDataPlane t = true -> (1 <= attempts new)%nat)
    /\ (diagnosed new = true ->
        attempts new = S retries
        /\ exists msg, (applyLoop retries backoffTime t w).1.1 = Panic msg).
Proof.
  revert backoffTime t w.
  induction retries as [|retries IH]; intros backoffTime t w.
  all: cbn [applyLoop]; rewrite run_bind; cbn [getTable]; rewrite run_bind.
  all: assert (Hload :
         exists r0 t1 w1 q1,
           (if negb (inSyncWithDataPlane t) then loadDataplaneState
            else mret tt) t w = (r0, t1, w1)
           /\ trace w1 = (trace w ++ q1)%list
           /\ Forall (fun e => isQuiet e = true) q1
           /\ (inSyncWithDataPlane t = true -> r0 = Val tt)
           /\ (r0 = Val tt -> inSyncWithDataPlane t1 = true)).
  1,3: destruct (inSyncWithDataPlane t) eqn:Hsync; cbn [negb].
  1,3: exists (Val tt), t, w, [];
         (split; [reflexivity |]);
         (split; [symmetry; apply app_nil_r |]);
         (split; [constructor |]); split; [reflexivity | intros _; exact Hsync].
  1,2: destruct (loadDataplaneState t w) as [[r0 t1] w1] eqn:El;
         destruct (quietly_loadDataplaneState t w) as [q1 [E1 Q1]];
         rewrite El in E1; cbn in E1;
         exists r0, t1, w1, q1;
         (split; [reflexivity |]); (split; [exact E1 |]);
         (split; [exact Q1 |]); (split; [discriminate |]);
         intros ->;
         apply (loadDataplaneState_success _ _ _ _ El).
  all: destruct Hload as (r0 & t1 & w1 & q1 & -> & E1 & Q1 & Hin & Hout).
  all: destruct (quiet_summary q1 Q1) as (A1 & B1 & D1).
  all: destruct r0 as [[]|msg0];
         [| exists q1; (split; [exact E1 |]); rewrite A1, B1, D1;
            (split; [lia |]); (split; [reflexivity |]);
            split; [intros Hs; specialize (Hin Hs); discriminate
                   | discriminate]].
  all: specialize (Hout eq_refl).
  all: rewrite run_bind; cbn [onStillAlive emit]; rewrite run_bind.
  all: match goal with
       | |- context [applyUpdates ?t0 ?w0] =>
           destruct (applyUpdates_trace t0 w0) as [q2 [E2 Q2]];
           destruct (applyUpdates t0 w0) as [[r2 t2] w2] eqn:Ea
       end.
  all: cbn in E2; rewrite E1 in E2.
  all: destruct (quiet_summary q2 Q2) as (A2 & B2 & D2).
  all: destruct r2 as [[e|]|msg2].
  (* no retries left *)
  - rewrite run_bind. cbn.
    exists (q1 ++ [EvStillAlive] ++ EvApplyUpdates :: q2 ++ [EvDiags])%list.
    split; [rewrite E2; rewrite <- !app_assoc; reflexivity |].
    rewrite !attempts_app, !backoffs_app, !diagnosed_app.
    change (EvApplyUpdates :: q2 ++ [EvDiags])%list
      with ([EvApplyUpdates] ++ q2 ++ [EvDiags])%list.
    rewrite !attempts_app, !backoffs_app, !diagnosed_app.
    rewrite A1, B1, D1, A2, B2, D2. cbn.
    repeat split; try lia. eexists. reflexivity.
  - exists (q1 ++ [EvStillAlive] ++ EvApplyUpdates :: q2)%list.
    split; [cbn; rewrite E2; rewrite <- !app_assoc; reflexivity |].
    change (EvApplyUpdates :: q2)%list with ([EvApplyUpdates] ++ q2)%list.
    rewrite !attempts_app, !backoffs_app, !diagnosed_app.
    rewrite A1, B1, D1, A2, B2, D2. cbn.
    repeat split; try lia; discriminate.
  - exists (q1 ++ [EvStillAlive] ++ EvApplyUpdates :: q2)%list.
    split; [cbn; rewrite E2; rewrite <- !app_assoc; reflexivity |].
    change (EvApplyUpdates :: q2)%list with ([EvApplyUpdates] ++ q2)%list.
    rewrite !attempts_app, !backoffs_app, !diagnosed_app.
    rewrite A1, B1, D1, A2, B2, D2. cbn.
    repeat split; try lia; discriminate.
  (* a retry *)
  - assert (t2 = t1) as ->.
    { unfold applyUpdates in Ea. rewrite run_bind in Ea. cbn [emit] in Ea.
      eapply applyUpdatesBody_failure. exact Ea. }
    rewrite run_bind. cbn [timeSleep emit].
    match goal with
    | |- context [applyLoop retries ?b t1 ?w3] =>
        destruct (IH b t1 w3) as (new & E3 & Ha & Hb & H1 & Hd);
        destruct (applyLoop retries b t1 w3) as [[r3 t3] w3'] eqn:Eloop
    end.
    specialize (H1 Hout). cbn in E3, Hd.
    exists (q1 ++ [EvStillAlive] ++ [EvApplyUpdates] ++ q2
            ++ [EvSleep WriteRetry backoffTime] ++ new)%list.
    split; [cbn; rewrite E3, E2; rewrite <- !app_assoc; reflexivity |].
    rewrite !attempts_app, !backoffs_app, !diagnosed_app.
    rewrite A1, B1, D1, A2, B2, D2. cbn.
    split; [lia |]. split.
    { rewrite Hb. destruct (attempts new) as [|k]; [lia |].
      cbn. rewrite Nat.sub_0_r. reflexivity. }
    split; [lia |].
    intros Hdiag. destruct (Hd Hdiag) as [Hall Hpanic].
    split; [lia | exact Hpanic].
  - exists (q1 ++ [EvStillAlive] ++ EvApplyUpdates :: q2)%list.
    split; [cbn; rewrite E2; rewrite <- !app_assoc; reflexivity |].
    change (EvApplyUpdates :: q2)%list with ([EvApplyUpdates] ++ q2)%list.
    rewrite !attempts_app, !backoffs_app, !diagnosed_app.
    rewrite A1, B1, D1, A2, B2, D2. cbn.
    repeat split; try lia; discriminate.
  - exists (q1 ++ [EvStillAlive] ++ EvApplyUpdates :: q2)%list.
    split; [cbn; rewrite E2; rewrite <- !app_assoc; reflexivity |].
    change (EvApplyUpdates :: q2)%list with ([EvApplyUpdates] ++ q2)%list.
    rewrite !attempts_app, !backoffs_app, !diagnosed_app.
    rewrite A1, B1, D1, A2, B2, D2. cbn.
    repeat split; try lia; discriminate.
Qed.

Lemma doubling_schedule (k : nat) :
  (k <= 10)%nat -> doubling (1 * Millisecond) k = take k backoffSchedule.
Proof.
  intros Hk.
  do 11 (destruct k as [|k]; [vm_compute; reflexivity |]).
  lia.
Qed.

(** C7: [Apply] calls [applyUpdates] at most 11 times, a first attempt and
    up to 10 retries; it sleeps between two consecutive attempts, for 1ms
    first and twice as long after each further failure; it gathers
    diagnostics only after the 11th attempt, and then panics. *)
Theorem Apply_retry_schedule (t : Table M A) (w : World F) :
  exists new,
    trace (Apply t w).2 = (trace w ++ new)%list
    /\ (attempts new <= 11)%nat
    /\ backoffs new = take (attempts new - 1) backoffSchedule
    /\ (diagnosed new = true ->
        attempts new = 11%nat /\ exists msg, (Apply t w).1.1 = Panic msg).
Proof.
  unfold Apply. rewrite run_bind. run_prims. rewrite run_bind. run_prims.
  match goal with
  | |- context [if ?c then (InvalidateDataplaneCache _ _, true) else _] =>
      destruct c
  end.
  all: cbv beta iota zeta.
  all: match goal with
       | |- context [postWriteLoop 65 ?now ?inv ?t0] =>
           destruct (postWriteLoop 65 now inv t0) as [[t1 inv']|]
       end.
  2,4: exists []; run_prims; rewrite app_nil_r;
         repeat split; try discriminate; cbn; lia.
  all: rewrite run_bind; run_prims; rewrite run_bind.
  all: match goal with
       | |- context [applyLoop 10 ?b ?t0 ?w0] =>
           destruct (applyLoop_trace 10 b t0 w0)
             as (new & E & Ha & Hb & _ & Hd);
           destruct (applyLoop 10 b t0 w0) as [[r t3] w3]
       end.
  all: cbn in E, Hd; exists new.
  all: assert (Hsched :
                 backoffs new = take (attempts new - 1) backoffSchedule)
         by (rewrite Hb; apply doubling_schedule; lia).
  all: destruct r as [[]|msg].
  1,3: rewrite run_bind; run_prims;
         (split; [exact E |]); (split; [exact Ha |]);
         (split; [exact Hsched |]);
         intros Hdiag; destruct (Hd Hdiag) as [_ [msg Hmsg]]; discriminate.
  all: (split; [exact E |]); (split; [exact Ha |]);
         (split; [exact Hsched |]);
         intros Hdiag; destruct (Hd Hdiag) as [Hall _];
         split; [exact Hall | eexists; reflexivity].
Qed.

(** *** The state after a successful [Apply] *)






End TraceFacts.

(** C7, as stated, fails when every transaction fails: [Apply] then calls
    [applyUpdates] 11 times, not 10, before it gives up. *)
Lemma Apply_makes_eleven_attempts :
  attempts (trace (Apply Demo.freshTable Demo.failingWorld).2) = 11%nat
  /\ ~ (attempts (trace (Apply Demo.freshTable Demo.failingWorld).2)
        <= 10)%nat.
Proof. split; [vm_compute; reflexivity | vm_compute; lia]. Qed.



(** * Further properties *)

(** ** Comments and fingerprints ([rules.go]) *)

Lemma replaceUnsafe_allSafe (skip : nat) (s : string) :
  allSafe (replaceUnsafe skip s) = true.
Proof.
  revert skip. induction s as [|c s IH]; intros skip; [reflexivity |].
  cbn [replaceUnsafe]. destruct skip as [|k]; [| apply IH].
  destruct (runeWidth c s) as [|[|w]].
  - unfold allSafe. cbn [list_ascii_of_string forallb].
    fold (allSafe (replaceUnsafe 0 s)). rewrite IH.
    destruct (shellSafe c) eqn:E; [rewrite E |]; reflexivity.
  - unfold allSafe. cbn [list_ascii_of_string forallb].
    fold (allSafe (replaceUnsafe 0 s)). rewrite IH.
    destruct (shellSafe c) eqn:E; [rewrite E |]; reflexivity.
  - unfold allSafe. cbn [list_ascii_of_string forallb].
    fold (allSafe (replaceUnsafe (S w) s)). rewrite IH. reflexivity.
Qed.

(** X1: whatever the input bytes are (valid UTF-8 or not), the text
    [escapeComment] returns holds shell-safe characters only. *)
Theorem escapeComment_only_safe (s : string) :
  allSafe (escapeComment s) = true.
Proof. apply replaceUnsafe_allSafe. Qed.

(** A shell-safe character is ASCII, so it is a rune of its own. *)
Lemma shellSafe_runeWidth (c : ascii) (rest : string) :
  shellSafe c = true -> runeWidth c rest = 1%nat.
Proof.
  destruct c as [b0 b1 b2 b3 b4 b5 b6 b7].
  destruct b7; [| intros _; destruct b0, b1, b2, b3, b4, b5, b6; reflexivity].
  destruct b0, b1, b2, b3, b4, b5, b6; intros E; discriminate E.
Qed.

Lemma replaceUnsafe_safe_id (s : string) :
  allSafe s = true -> replaceUnsafe 0 s = s.
Proof.
  induction s as [|c s IH]; intros Hs; [reflexivity |].
  unfold allSafe in Hs. cbn [list_ascii_of_string forallb] in Hs.
  apply andb_prop in Hs as [Hc Hs].
  cbn [replaceUnsafe]. rewrite (shellSafe_runeWidth c s Hc), Hc.
  f_equal. apply IH. exact Hs.
Qed.

(** X2: [escapeComment] is idempotent: a text it has escaped is left as it
    is when escaped again. *)
Theorem escapeComment_idempotent (s : string) :
  escapeComment (escapeComment s) = escapeComment s.
Proof.
  unfold escapeComment at 1. apply replaceUnsafe_safe_id.
  apply replaceUnsafe_allSafe.
Qed.

Lemma substring_0_length (n : nat) (s : string) :
  String.length (String.substring 0 n s) = Nat.min n (String.length s).
Proof.
  revert s. induction n as [|n IH]; intros [|c s]; cbn; try reflexivity.
  f_equal. apply IH.
Qed.

Lemma substring_0_prefix (n : nat) (s : string) :
  String.prefix (String.substring 0 n s) s = true.
Proof.
  revert s. induction n as [|n IH]; intros [|c s]; cbn; try reflexivity.
  destruct (ascii_dec c c); [apply IH | congruence].
Qed.

Lemma substring_0_allSafe (n : nat) (s : string) :
  allSafe s = true -> allSafe (String.substring 0 n s) = true.
Proof.
  unfold allSafe. revert s.
  induction n as [|n IH]; intros [|c s]; cbn; try reflexivity.
  intros Hs. apply andb_prop in Hs as [Hc Hs]. rewrite Hc. apply IH, Hs.
Qed.

Lemma prefix_refl (s : string) : String.prefix s s = true.
Proof.
  induction s as [|c s IH]; cbn; [reflexivity |].
  destruct (ascii_dec c c); [exact IH | congruence].
Qed.

(** X3: [truncateComment] returns a prefix of its argument of at most 256
    bytes, and the argument itself when that has at most 256 bytes. *)
Theorem truncateComment_prefix_bound (s : string) :
  (String.length (truncateComment s) <= 256)%nat
  /\ String.prefix (truncateComment s) s = true
  /\ ((String.length s <= 256)%nat -> truncateComment s = s).
Proof.
  unfold truncateComment, maxCommentLen, slice_to.
  destruct (256 <? String.length s)%nat eqn:E.
  - apply Nat.ltb_lt in E.
    split; [rewrite substring_0_length; lia |].
    split; [apply substring_0_prefix | lia].
  - apply Nat.ltb_ge in E.
    split; [exact E |]. split; [apply prefix_refl | reflexivity].
Qed.

(** X4: a comment line as it is written into a rule's comment, escaped and
    then truncated, holds at most 256 characters, all of them shell-safe. *)
Theorem comment_line_safe_and_short (c : string) :
  allSafe (truncateComment (escapeComment c)) = true
  /\ (String.length (truncateComment (escapeComment c)) <= 256)%nat.
Proof.
  split.
  - unfold truncateComment, slice_to.
    destruct (maxCommentLen <? _)%nat.
    + apply substring_0_allSafe, replaceUnsafe_allSafe.
    + apply replaceUnsafe_allSafe.
  - unfold truncateComment, maxCommentLen, slice_to.
    destruct (256 <? _)%nat eqn:E.
    + rewrite substring_0_length. lia.
    + apply Nat.ltb_ge in E. exact E.
Qed.

Section HashFacts.
Context {F M A : Type} `{!MatchCriteria M} `{!Action F A} `{!Hasher}.

Lemma renderInner_ignores_comment (fragments : list string)
    (prefixFragment : string) (features : F) (r : Rule M A)
    (lines : list string) :
  renderInner fragments prefixFragment features
    (mkRule (Match r) (Action_ r) lines)
  = renderInner fragments prefixFragment features r.
Proof. reflexivity. Qed.

Lemma ruleHashesFrom_ignores_comments (name : string) (features : F)
    (hash : string) (rules : list (Rule M A))
    (lines : Rule M A -> list string) :
  ruleHashesFrom name features hash
    (map (fun r => mkRule (Match r) (Action_ r) (lines r)) rules)
  = ruleHashesFrom name features hash rules.
Proof.
  revert hash. induction rules as [|r rules IH]; intros hash; cbn [map].
  - reflexivity.
  - cbn [ruleHashesFrom]. unfold RenderAppend.
    rewrite renderInner_ignores_comment, IH. reflexivity.
Qed.

(** X5: the fingerprints of a chain do not depend on the comment lines of
    its rules: replacing the comments of the rules in any way leaves every
    hash as it was. *)
Theorem RuleHashes_ignore_comments (name : string) (rules : list (Rule M A))
    (features : F) (lines : Rule M A -> list string) :
  RuleHashes
    (mkChain name
       (map (fun r => mkRule (Match r) (Action_ r) (lines r)) rules))
    features
  = RuleHashes (mkChain name rules) features.
Proof. apply ruleHashesFrom_ignores_comments. Qed.

Lemma ruleHashesFrom_app (name : string) (features : F) (hash : string)
    (rules more : list (Rule M A)) :
  exists hash',
    ruleHashesFrom name features hash (rules ++ more)
    = (ruleHashesFrom name features hash rules
       ++ ruleHashesFrom name features hash' more)%list.
Proof.
  revert hash. induction rules as [|r rules IH]; intros hash.
  - exists hash. reflexivity.
  - cbn [app ruleHashesFrom].
    destruct (IH (sha224
                    (hash ++ RenderAppend r "" name "HASH" features)))
      as [hash' E].
    exists hash'. rewrite E. reflexivity.
Qed.

(** X6: a chain has one fingerprint per rule, and rules added at the end of
    a chain leave the fingerprints of the rules before them unchanged. *)
Theorem RuleHashes_append_stable (name : string)
    (rules more : list (Rule M A)) (features : F) :
  List.length (RuleHashes (mkChain name rules) features) = List.length rules
  /\ take (List.length rules)
       (RuleHashes (mkChain name (rules ++ more)) features)
     = RuleHashes (mkChain name rules) features.
Proof.
  assert (Hlen : forall hash rs,
            List.length (ruleHashesFrom name features hash rs)
            = List.length rs).
  { intros hash rs. revert hash.
    induction rs as [|r rs IH]; intros hash; cbn; [| rewrite IH];
      reflexivity. }
  split; [apply Hlen |].
  unfold RuleHashes. cbn [Name Rules].
  destruct (ruleHashesFrom_app name features (sha224 name) rules more)
    as [hash' ->].
  rewrite take_app_length'; [reflexivity | symmetry; apply Hlen].
Qed.

(** With a leading fragment that is not empty, the rendering is the join
    of the leading fragments and the non-empty prefix, match and action
    fragments: the fallback to [counter] is out of reach. *)
Lemma renderInner_with_header (c0 : ascii) (s0 : string)
    (rest : list string) (prefixFragment : string) (features : F)
    (r : Rule M A) :
  renderInner (String c0 s0 :: rest) prefixFragment features r
  = Join ((String c0 s0 :: rest)
          ++ List.filter nonEmpty
               [prefixFragment; match_Render (Match r);
                actionFragment r features]) " ".
Proof.
  assert (Hjoin : forall l,
            (if decide (String.length (Join (String c0 s0 :: l) " ") = 0%nat)
             then "counter" else Join (String c0 s0 :: l) " ")
            = Join (String c0 s0 :: l) " ").
  { intros [|x l]; reflexivity. }
  unfold renderInner, actionFragment, nonEmpty.
  destruct (Action_ r) as [a|].
  - generalize (ToFragment a features) as af.
    generalize (match_Render (Match r)) as mf.
    intros [|c1 mf] [|c2 af]; destruct prefixFragment as [|c3 pf];
      cbn [String.eqb negb List.filter app];
      rewrite <- ?app_assoc; cbn [app];
      rewrite ?app_nil_r; change (String c0 s0 :: ?l ++ ?k)%list
        with ((String c0 s0 :: l) ++ k)%list; apply Hjoin.
  - generalize (match_Render (Match r)) as mf.
    intros [|c1 mf]; destruct prefixFragment as [|c3 pf];
      cbn [String.eqb negb List.filter app];
      rewrite <- ?app_assoc; cbn [app];
      rewrite ?app_nil_r; apply Hjoin.
Qed.

End HashFacts.

Section RenderFacts.
Context {F M A : Type} `{!MatchCriteria M} `{!Action F A} `{!Hasher}.

(** X7: the four renderings of a rule as an [nft] command are the command
    words, the table, the chain (and the position or handle in decimal),
    followed by the non-empty prefix, match and action fragments, joined by
    single spaces; unlike the body [Render] produces, they never fall back
    to [counter], also for a rule with nothing to render. *)
Theorem renderings_with_command (r : Rule M A)
    (table chainName prefixFragment : string) (n : Z) (features : F) :
  let body :=
    List.filter nonEmpty
      [prefixFragment; match_Render (Match r); actionFragment r features] in
  RenderAppend r table chainName prefixFragment features
  = Join (["add rule"; table; chainName] ++ body) " "
  /\ RenderInsert r table chainName prefixFragment features
     = Join (["insert rule"; table; chainName] ++ body) " "
  /\ RenderInsertAtRuleNumber r table chainName n prefixFragment features
     = Join (["insert rule"; table; chainName; "position " ++ formatInt n]
             ++ body) " "
  /\ RenderReplace r table chainName n prefixFragment features
     = Join (["replace rule"; table; chainName; "handle " ++ formatInt n]
             ++ body) " ".
Proof.
  intros body. repeat split; apply renderInner_with_header.
Qed.

End RenderFacts.

(** ** Mutations of the desired state *)
Section MutationFacts.
Context {F M A : Type} `{!Action F A}.

Lemma refcountFrame_refl (t : Table M A) : refcountFrame t t.
Proof.
  exists (chainRefCounts t), (dirtyChains t).
  split; [destruct t; reflexivity | reflexivity].
Qed.

Lemma refcountFrame_trans (t1 t2 t3 : Table M A) :
  refcountFrame t1 t2 -> refcountFrame t2 t3 -> refcountFrame t1 t3.
Proof.
  intros (c1 & d1 & -> & S1) (c2 & d2 & -> & S2). cbn in S2.
  exists c2, d2. split; [reflexivity | set_solver].
Qed.

Lemma forReferredChains_frame (step : string -> Table M A -> option (Table M A))
    (rules : list (Rule M A)) (t t' : Table M A) :
  (forall c u u', step c u = Some u' -> refcountFrame u u') ->
  forReferredChains step rules t = Some t' -> refcountFrame t t'.
Proof.
  intros Hstep. revert t.
  induction rules as [|r rules IH]; intros t E; cbn in E.
  - injection E as <-. apply refcountFrame_refl.
  - destruct (referredChain r) as [ref|]; [| apply IH, E].
    destruct (step ref t) as [u|] eqn:Es; [| discriminate].
    eapply refcountFrame_trans; [eapply Hstep, Es | apply IH, E].
Qed.

Lemma maybeReferredChains_frame
    (step : string -> Table M A -> option (Table M A)) (chainName : string)
    (rules : list (Rule M A)) (t t' : Table M A) :
  (forall c u u', step c u = Some u' -> refcountFrame u u') ->
  maybeReferredChains step chainName rules t = Some t' -> refcountFrame t t'.
Proof.
  intros Hstep. unfold maybeReferredChains.
  destruct (negb (chainIsReferenced t chainName)).
  - intros E. injection E as <-. apply refcountFrame_refl.
  - apply forReferredChains_frame, Hstep.
Qed.

Lemma increfChain_frame (fuel : nat) (chainName : string)
    (t t' : Table M A) :
  increfChain fuel chainName t = Some t' -> refcountFrame t t'.
Proof.
  revert chainName t t'.
  induction fuel as [|fuel IH]; intros chainName t t' E; [discriminate |].
  cbn [increfChain] in E.
  match type of E with
  | context [set_chainRefCounts ?c t] =>
      assert (F1 : refcountFrame t (set_chainRefCounts c t))
        by (exists c, (dirtyChains t);
            split; [destruct t; reflexivity | reflexivity]);
      remember (set_chainRefCounts c t) as t1 eqn:Et1
  end.
  clear Et1.
  destruct (refCount t1 chainName =? 1).
  - assert (F2 : refcountFrame t1
                   (set_dirtyChains ({[chainName]} ∪ dirtyChains t1) t1)).
    { exists (chainRefCounts t1), ({[chainName]} ∪ dirtyChains t1).
      split; [destruct t1; reflexivity | set_solver]. }
    remember (set_dirtyChains ({[chainName]} ∪ dirtyChains t1) t1) as t2
      eqn:Et2.
    assert (Hc : chainNameToChain t2 = chainNameToChain t1)
      by (subst t2; reflexivity).
    clear Et2.
    destruct (chainNameToChain t2 !! chainName) as [chain|].
    + apply maybeReferredChains_frame in E; [| apply IH].
      eapply refcountFrame_trans; [exact F1 |].
      eapply refcountFrame_trans; [exact F2 | exact E].
    + injection E as <-.
      eapply refcountFrame_trans; [exact F1 | exact F2].
  - injection E as <-. exact F1.
Qed.

Lemma decrefChain_frame (fuel : nat) (chainName : string)
    (t t' : Table M A) :
  decrefChain fuel chainName t = Some t' -> refcountFrame t t'.
Proof.
  revert chainName t t'.
  induction fuel as [|fuel IH]; intros chainName t t' E; [discriminate |].
  cbn [decrefChain] in E.
  destruct (refCount t chainName =? 1).
  - assert (Hrec : exists u,
              refcountFrame t u
              /\ Some (set_dirtyChains
                         ({[chainName]}
                          ∪ dirtyChains
                              (set_chainRefCounts
                                 (delete chainName (chainRefCounts u)) u))
                         (set_chainRefCounts
                            (delete chainName (chainRefCounts u)) u))
                 = Some t').
    { destruct (chainNameToChain t !! chainName) as [chain|].
      - destruct (maybeReferredChains _ chainName (Rules chain) t)
          as [u|] eqn:Em; [| discriminate].
        exists u. split; [| exact E].
        eapply maybeReferredChains_frame; [apply IH | exact Em].
      - exists t. split; [apply refcountFrame_refl | exact E]. }
    destruct Hrec as (u & Fu & Eu). injection Eu as <-.
    eapply refcountFrame_trans; [exact Fu |].
    exists (delete chainName (chainRefCounts u)),
           ({[chainName]} ∪ dirtyChains u).
    split; [destruct u; reflexivity | set_solver].
  - injection E as <-.
    exists (<[chainName := wrap64 (refCount t chainName - 1)]>
              (chainRefCounts t)), (dirtyChains t).
    split; [destruct t; reflexivity | reflexivity].
Qed.

(** The steps of a mutation, after the reference counts are settled. *)
Ltac settle_frames :=
  repeat match goal with
    | H : maybeIncrefReferredChains _ _ _ _ = Some _ |- _ =>
        apply maybeReferredChains_frame in H;
        [destruct H as (? & ? & -> & ?) | apply increfChain_frame]
    | H : maybeDecrefReferredChains _ _ _ _ = Some _ |- _ =>
        apply maybeReferredChains_frame in H;
        [destruct H as (? & ? & -> & ?) | apply decrefChain_frame]
    | H : Some _ = Some _ |- _ => injection H as <-
    end.

Ltac close_frame :=
  unfold mutationFrame, InvalidateDataplaneCache;
  repeat match goal with
    | |- context [if ?c then _ else _] => destruct c eqn:?
    end;
  cbn in *; repeat split; try reflexivity; try congruence; try set_solver.

(** X8: a mutation of the desired state ([UpdateChain],
    [RemoveChainByName], [InsertOrAppendRules], [AppendRules]) never
    touches the observed state, the clocks or the configuration, never
    takes a chain out of a dirty set, and never declares the table in
    sync. *)
Theorem mutate_frame (fuel : nat) (m : Mutation M A) (t t' : Table M A) :
  mutate fuel m t = Some t' -> mutationFrame t t'.
Proof.
  destruct m as [chain|name|chainName rules|chainName rules];
    cbn [mutate]; intros E.
  - unfold UpdateChain in E.
    apply bind_Some in E as (t1 & E1 & E).
    apply bind_Some in E as (t2 & E2 & E).
    destruct (chainNameToChain t1 !! Name chain) as [oldChain|];
      settle_frames;
      match type of E with
      | (if ?c then _ else _) = _ => destruct c
      end; settle_frames; close_frame.
  - unfold RemoveChainByName in E.
    destruct (chainNameToChain t !! name) as [oldChain|];
      [| settle_frames; close_frame].
    apply bind_Some in E as (t1 & E1 & E).
    settle_frames.
    match type of E with
    | (if ?c then _ else _) = _ => destruct c
    end; settle_frames; close_frame.
  - unfold InsertOrAppendRules in E.
    apply bind_Some in E as (t1 & E1 & E).
    apply bind_Some in E as (t2 & E2 & E).
    settle_frames. close_frame.
  - unfold AppendRules in E.
    apply bind_Some in E as (t1 & E1 & E).
    apply bind_Some in E as (t2 & E2 & E).
    settle_frames. close_frame.
Qed.

Ltac close_effect :=
  unfold InvalidateDataplaneCache;
  repeat match goal with
    | |- context [negb (inSyncWithDataPlane ?x)] =>
        destruct (inSyncWithDataPlane x) eqn:?
    end;
  cbn in *; repeat split; try reflexivity; try congruence.

(** X9: what a mutation that returns has stored. [UpdateChain] puts the
    chain under its name and [RemoveChainByName] deletes the name, and
    neither touches the hooked rules; [InsertOrAppendRules] and
    [AppendRules] replace the rules hooked into the chain, mark the chain in
    [dirtyInsertAppend] and leave the table out of sync, and do not touch
    the owned chains. *)
Theorem mutate_effect (fuel : nat) (m : Mutation M A) (t t' : Table M A) :
  mutate fuel m t = Some t' ->
  match m with
  | MUpdateChain chain =>
      chainNameToChain t' = <[Name chain := chain]> (chainNameToChain t)
      /\ chainToInsertedRules t' = chainToInsertedRules t
      /\ chainToAppendedRules t' = chainToAppendedRules t
      /\ dirtyInsertAppend t' = dirtyInsertAppend t
  | MRemoveChainByName name =>
      chainNameToChain t' = delete name (chainNameToChain t)
      /\ chainToInsertedRules t' = chainToInsertedRules t
      /\ chainToAppendedRules t' = chainToAppendedRules t
      /\ dirtyInsertAppend t' = dirtyInsertAppend t
  | MInsertOrAppendRules chainName rules =>
      chainToInsertedRules t' = <[chainName := rules]> (chainToInsertedRules t)
      /\ chainToAppendedRules t' = chainToAppendedRules t
      /\ chainNameToChain t' = chainNameToChain t
      /\ dirtyInsertAppend t' = {[chainName]} ∪ dirtyInsertAppend t
      /\ inSyncWithDataPlane t' = false
  | MAppendRules chainName rules =>
      chainToAppendedRules t' = <[chainName := rules]> (chainToAppendedRules t)
      /\ chainToInsertedRules t' = chainToInsertedRules t
      /\ chainNameToChain t' = chainNameToChain t
      /\ dirtyInsertAppend t' = {[chainName]} ∪ dirtyInsertAppend t
      /\ inSyncWithDataPlane t' = false
  end.
Proof.
  destruct m as [chain|name|chainName rules|chainName rules];
    cbn [mutate]; intros E.
  - unfold UpdateChain in E.
    apply bind_Some in E as (t1 & E1 & E).
    apply bind_Some in E as (t2 & E2 & E).
    destruct (chainNameToChain t1 !! Name chain) as [oldChain|];
      settle_frames;
      match type of E with
      | (if ?c then _ else _) = _ => destruct c
      end; settle_frames; close_effect.
  - unfold RemoveChainByName in E.
    destruct (chainNameToChain t !! name) as [oldChain|] eqn:Eold.
    + apply bind_Some in E as (t1 & E1 & E).
      settle_frames.
      match type of E with
      | (if ?c then _ else _) = _ => destruct c
      end; settle_frames; close_effect.
    + settle_frames. rewrite (delete_id _ _ Eold). repeat split.
  - unfold InsertOrAppendRules in E.
    apply bind_Some in E as (t1 & E1 & E).
    apply bind_Some in E as (t2 & E2 & E).
    settle_frames. close_effect.
  - unfold AppendRules in E.
    apply bind_Some in E as (t1 & E1 & E).
    apply bind_Some in E as (t2 & E2 & E).
    settle_frames. close_effect.
Qed.

(** X10: [UpdateChain] of a chain that nothing refers to only records the
    chain: whatever its rules are, no reference count changes, no chain is
    marked dirty and the dataplane cache is not invalidated, so the chain
    is not programmed. *)
Theorem UpdateChain_unreferenced (fuel : nat) (chain : Chain M A)
    (t : Table M A) :
  chainIsReferenced t (Name chain) = false ->
  UpdateChain fuel chain t
  = Some (set_chainNameToChain
            (<[Name chain := chain]> (chainNameToChain t)) t).
Proof.
  intros Href. unfold UpdateChain, maybeIncrefReferredChains,
    maybeDecrefReferredChains, maybeReferredChains.
  rewrite Href. cbn [negb mbind option_bind].
  assert (Hafter :
            chainIsReferenced
              (set_chainNameToChain
                 (<[Name chain := chain]> (chainNameToChain t)) t)
              (Name chain) = false) by exact Href.
  destruct (chainNameToChain t !! Name chain);
    unfold mbind, option_bind; rewrite ?Href; cbn [negb];
    rewrite Hafter; reflexivity.
Qed.

Lemma wrap64_id (z : Z) : - 2 ^ 63 <= z < 2 ^ 63 -> wrap64 z = z.
Proof.
  intros Hz. unfold wrap64. rewrite Z.mod_small by lia. lia.
Qed.

(** X11: for a chain that is not in the cache of owned chains, a reference
    taken and dropped again leaves the reference counts as they were,
    provided the map stores no zero for the chain and its count can still
    grow. *)
Theorem incref_decref_counts (fuel : nat) (chainName : string)
    (t : Table M A) :
  chainNameToChain t !! chainName = None ->
  chainRefCounts t !! chainName <> Some 0 ->
  0 <= refCount t chainName < 2 ^ 63 - 1 ->
  exists t1 t2,
    increfChain (S fuel) chainName t = Some t1
    /\ decrefChain (S fuel) chainName t1 = Some t2
    /\ chainRefCounts t2 = chainRefCounts t.
Proof.
  intros Hcache Hzero Hrange. cbn [increfChain].
  rewrite wrap64_id by lia.
  set (t0 := set_chainRefCounts _ t).
  assert (Hcount : refCount t0 chainName = refCount t chainName + 1).
  { unfold refCount, t0. cbn. rewrite lookup_insert_eq. reflexivity. }
  rewrite Hcount.
  destruct (refCount t chainName + 1 =? 1) eqn:Eone.
  - apply Z.eqb_eq in Eone.
    change (chainNameToChain (set_dirtyChains ?d t0))
      with (chainNameToChain t).
    rewrite Hcache. eexists _, _. split; [reflexivity |].
    cbn [decrefChain].
    change (refCount (set_dirtyChains ?d t0) chainName)
      with (refCount t0 chainName).
    rewrite Hcount, Eone. cbn [Z.eqb Pos.eqb].
    change (chainNameToChain (set_dirtyChains ?d t0))
      with (chainNameToChain t).
    rewrite Hcache. split; [reflexivity |].
    cbn. rewrite delete_insert_eq. apply delete_id.
    unfold refCount in Eone.
    destruct (chainRefCounts t !! chainName) as [v|] eqn:Ev;
      [| reflexivity].
    cbn in Eone. exfalso. apply Hzero. f_equal. lia.
  - apply Z.eqb_neq in Eone.
    eexists _, _. split; [reflexivity |].
    cbn [decrefChain]. rewrite Hcount.
    destruct (refCount t chainName + 1 =? 1) eqn:Eone';
      [apply Z.eqb_eq in Eone'; lia |].
    split; [reflexivity |].
    cbn. rewrite insert_insert_eq.
    replace (refCount t chainName + 1 - 1) with (refCount t chainName)
      by lia.
    rewrite wrap64_id by lia.
    apply insert_id. unfold refCount in *.
    destruct (chainRefCounts t !! chainName) as [v|] eqn:Ev;
      [reflexivity |]. cbn in Eone. lia.
Qed.

End MutationFacts.

(** ** A new table *)
Section NewTableFacts.
Context {M A : Type} `{!Regexp}.

Lemma kernelChains_NoDup (name : string) : NoDup (kernelChains name).
Proof.
  unfold kernelChains.
  destruct (tableToChains !! name) as [l|] eqn:E; [| constructor].
  apply elem_of_list_to_map_2 in E. cbn [default].
  rewrite !elem_of_cons in E.
  destruct E as [E|[E|[E|[E|E]]]]; [| | | | inversion E].
  all: simplify_eq;
         refine (@bool_decide_unpack _ (NoDup_dec _) _); vm_compute; exact I.
Qed.

Lemma refcounts_fold (l : list string) (m0 : gmap string Z) (c : string) :
  NoDup l -> (forall k, k ∈ l -> m0 !! k = None) ->
  foldl (fun m k => <[k := wrap64 (default 0 (m !! k) + 1)]> m) m0 l !! c
  = if decide (c ∈ l) then Some 1 else m0 !! c.
Proof.
  revert m0. induction l as [|k l IH]; intros m0 Hnd Hfresh.
  - cbn. rewrite decide_False by apply not_elem_of_nil. reflexivity.
  - apply NoDup_cons in Hnd as [Hk Hnd]. cbn [foldl].
    rewrite IH; [| exact Hnd |].
    + rewrite (Hfresh k) by (left). change (wrap64 (default 0 None + 1)) with 1.
      destruct (decide (c ∈ l)) as [Hin|Hout].
      * rewrite decide_True by (right; exact Hin). reflexivity.
      * destruct (decide (c = k)) as [->|Hne].
        -- rewrite decide_True by left. apply lookup_insert_eq.
        -- rewrite decide_False
             by (intros Hc; apply elem_of_cons in Hc as [?|?]; tauto).
           apply lookup_insert_ne. congruence.
    + intros k' Hk'. rewrite lookup_insert_ne by (intros ->; tauto).
      apply Hfresh. right. exact Hk'.
Qed.

Lemma rules_fold (l : list string) (m0 : gmap string (list (Rule M A)))
    (c : string) :
  foldl (fun m k => <[k := []]> m) m0 l !! c
  = if decide (c ∈ l) then Some [] else m0 !! c.
Proof.
  revert m0. induction l as [|k l IH]; intros m0.
  - cbn. rewrite decide_False by apply not_elem_of_nil. reflexivity.
  - cbn [foldl]. rewrite IH.
    destruct (decide (c ∈ l)) as [Hin|Hout].
    + rewrite decide_True by (right; exact Hin). reflexivity.
    + destruct (decide (c = k)) as [->|Hne].
      * rewrite decide_True by left. apply lookup_insert_eq.
      * rewrite decide_False
          by (intros Hc; apply elem_of_cons in Hc as [?|?]; tauto).
        apply lookup_insert_ne. congruence.
Qed.

Lemma dirty_fold (l : list string) (s0 : gset string) (c : string) :
  c ∈ foldl (fun s k => {[k]} ∪ s) s0 l <-> c ∈ l \/ c ∈ s0.
Proof.
  revert s0. induction l as [|k l IH]; intros s0; cbn [foldl].
  - split; [right; assumption | intros [Hc|Hc]; [inversion Hc | exact Hc]].
  - rewrite IH, elem_of_cons, elem_of_union, elem_of_singleton. tauto.
Qed.

(** X12: the table [NewTable] returns holds, for each kernel chain of the
    named table, the reference count 1, empty lists of hooked rules and a
    mark in [dirtyInsertAppend], and nothing for any other chain; it has no
    owned chains, no dirty owned chains and no observed state, it is out
    of sync, its insert mode is [insert] or [append], and its post-write
    interval is at least 50ms. *)
Theorem NewTable_initial_state (name : string) (ipVersion : Z)
    (hashPrefix : string) (options : TableOptions) (now : Z)
    (t : Table M A) :
  NewTable name ipVersion hashPrefix options now = Val t ->
  (forall c,
     chainRefCounts t !! c
     = if decide (c ∈ kernelChains name) then Some 1 else None)
  /\ (forall c,
        chainToInsertedRules t !! c
        = if decide (c ∈ kernelChains name) then Some [] else None)
  /\ (forall c,
        chainToAppendedRules t !! c
        = if decide (c ∈ kernelChains name) then Some [] else None)
  /\ (forall c, c ∈ dirtyInsertAppend t <-> c ∈ kernelChains name)
  /\ chainNameToChain t = ∅
  /\ dirtyChains t = ∅
  /\ chainToDataplaneHashes t = ∅
  /\ chainToFullRules t = ∅
  /\ inSyncWithDataPlane t = false
  /\ (insertMode t = "insert" \/ insertMode t = "append")
  /\ minPostWriteInterval <= postWriteInterval t
  /\ initialPostWriteInterval t = postWriteInterval t
  /\ lastWriteTime t = now.
Proof.
  unfold NewTable.
  destruct (MustCompile _) as [re1|]; [| discriminate].
  destruct (MustCompile _) as [re2|]; [| discriminate].
  match goal with
  | |- (?m ≫= _) = _ -> _ => destruct m as [mode|msg] eqn:Emode
  end; [| discriminate].
  cbn [mbind res_bind]. intros E. injection E as <-.
  cbn [chainRefCounts chainToInsertedRules chainToAppendedRules
       dirtyInsertAppend chainNameToChain dirtyChains
       chainToDataplaneHashes chainToFullRules inSyncWithDataPlane
       insertMode postWriteInterval initialPostWriteInterval lastWriteTime].
  split.
  { intros c. rewrite refcounts_fold;
      [rewrite lookup_empty; reflexivity | apply kernelChains_NoDup |].
    intros; apply lookup_empty. }
  split; [intros c; rewrite rules_fold, lookup_empty; reflexivity |].
  split; [intros c; rewrite rules_fold, lookup_empty; reflexivity |].
  split.
  { intros c. rewrite dirty_fold.
    split; [intros [Hc|Hc]; [exact Hc | exfalso; revert Hc;
                                         apply not_elem_of_empty]
           | left; assumption]. }
  repeat (split; [reflexivity |]).
  split.
  { destruct (_ || _); [injection Emode as <-; left; reflexivity |].
    destruct (String.eqb _ "append"); [| discriminate].
    injection Emode as <-. right. reflexivity. }
  split; [| split; reflexivity].
  destruct (PostWriteInterval options <=? minPostWriteInterval) eqn:Ep;
    [lia |]. apply Z.leb_gt in Ep. lia.
Qed.


End NewTableFacts.

(** ** Reading the dataplane *)
Section ReaderFacts.
Context {F M A : Type}.

Lemma listings_app (a b : list Event) :
  listings (a ++ b) = (listings a + listings b)%nat.
Proof. unfold listings. rewrite List.filter_app, length_app. reflexivity. Qed.

Lemma readSleeps_app (a b : list Event) :
  readSleeps (a ++ b) = (readSleeps a ++ readSleeps b)%list.
Proof. apply flat_map_app. Qed.

(** One round of the read: the liveness callback, then one listing. *)
Lemma read_round (t : Table M A) (w : World F) :
  exists r t' w',
    (onStillAlive;; attemptToGetHashesAndRulesFromDataplane) t w
    = (Val r, t', w')
    /\ trace w' = (trace w ++ [EvStillAlive; EvList])%list
    /\ hashCommentPrefix t' = hashCommentPrefix t
    /\ r = match kernelReads w (reads w) with
           | ListFailed => None
           | Listed chains =>
               hashesAndRulesOf (hashCommentPrefix t) chains ∅ ∅
           end.
Proof.
  do 3 eexists. split.
  { cbv [attemptToGetHashesAndRulesFromDataplane mbind prog_bind onStillAlive
         emit timeNow nftList getTable putTable mret prog_ret].
    reflexivity. }
  cbn. rewrite <- app_assoc. repeat split.
Qed.

Lemma getHashesAndRulesLoop_rounds (retries : nat) (retryDelay : Z)
    (t : Table M A) (w : World F) :
  exists new,
    trace (getHashesAndRulesLoop retries retryDelay t w).2
    = (trace w ++ new)%list
    /\ (1 <= listings new <= S retries)%nat
    /\ readSleeps new = doubling retryDelay (listings new - 1)
    /\ (panicked (getHashesAndRulesLoop retries retryDelay t w).1.1 = true ->
        listings new = S retries).
Proof.
  revert retryDelay t w.
  induction retries as [|retries IH]; intros retryDelay t w.
  all: destruct (read_round t w) as (r & t1 & w1 & Er & Et & _ & _).
  all: cbn [getHashesAndRulesLoop].
  all: assert (Hrun : forall X (k : _ -> Prog X),
                 (onStillAlive;; r ← attemptToGetHashesAndRulesFromDataplane;
                  k r) t w = k r t1 w1).
  1,3: intros X k;
         change ((onStillAlive;; attemptToGetHashesAndRulesFromDataplane) t w
                 = (Val r, t1, w1)) in Er;
         rewrite run_bind in Er; rewrite run_bind;
         destruct (onStillAlive t w) as [[[[]|m0] t0] w0];
         [| discriminate];
         rewrite run_bind; rewrite Er; reflexivity.
  all: rewrite Hrun.
  all: destruct r as [hr|].
  1,3: exists [EvStillAlive; EvList];
         (split; [exact Et |]); (split; [cbv [listings]; cbn; lia |]);
         split; [reflexivity | discriminate].
  - exists [EvStillAlive; EvList].
    split; [exact Et |]. split; [cbv [listings]; cbn; lia |].
    split; reflexivity.
  - rewrite run_bind. cbn [timeSleep emit].
    match goal with
    | |- context [getHashesAndRulesLoop retries ?d t1 ?w2] =>
        destruct (IH d t1 w2) as (new & En & Hl & Hs & Hp);
        destruct (getHashesAndRulesLoop retries d t1 w2) as [[r2 t2] w3]
    end.
    cbn [fst snd trace] in En, Hp |- *.
    exists ([EvStillAlive; EvList] ++ [EvSleep ReadRetry retryDelay]
            ++ new)%list.
    split; [rewrite En, Et; rewrite <- !app_assoc; reflexivity |].
    rewrite !listings_app, !readSleeps_app.
    change (listings [EvStillAlive; EvList]) with 1%nat.
    change (listings [EvSleep ReadRetry retryDelay]) with 0%nat.
    change (readSleeps [EvStillAlive; EvList]) with (@nil Z).
    change (readSleeps [EvSleep ReadRetry retryDelay]) with [retryDelay].
    split; [lia |]. split.
    + rewrite Hs. destruct (listings new) as [|k]; [lia |].
      replace (1 + (0 + S k) - 1)%nat with (S (S k - 1)) by lia.
      reflexivity.
    + intros Hpanic. rewrite (Hp Hpanic). reflexivity.
Qed.

(** X14: one read of the dataplane lists the kernel table at least once
    and at most 4 times (a first listing and up to 3 retries); between two
    listings it sleeps, for 100ms first and twice as long after each
    further failure; it panics only after the 4th listing. *)
Theorem read_retry_schedule (t : Table M A) (w : World F) :
  exists new,
    trace (getHashesAndRulesFromDataplane t w).2 = (trace w ++ new)%list
    /\ (1 <= listings new <= 4)%nat
    /\ readSleeps new = take (listings new - 1) readSchedule
    /\ (panicked (getHashesAndRulesFromDataplane t w).1.1 = true ->
        listings new = 4%nat).
Proof.
  destruct (getHashesAndRulesLoop_rounds 3 (100 * Millisecond) t w)
    as (new & E & Hl & Hs & Hp).
  exists new. split; [exact E |]. split; [exact Hl |].
  split; [| exact Hp].
  rewrite Hs. clear - Hl. revert Hl.
  generalize (listings new) as n.
  intros [|[|[|[|[|k]]]]] Hl; [lia | | | | | lia]; vm_compute; reflexivity.
Qed.

Lemma hashesAndRulesOf_hashes (hashCommentPrefix : string)
    (chains : list (string * option (list KRule)))
    (hashes0 hashes : gmap string (list string))
    (rules0 rules : gmap string (list KRule)) :
  (forall c, hashes0 !! c
             = map (hashOfRule hashCommentPrefix) <$> rules0 !! c) ->
  hashesAndRulesOf hashCommentPrefix chains hashes0 rules0
  = Some (hashes, rules) ->
  forall c, hashes !! c = map (hashOfRule hashCommentPrefix) <$> rules !! c.
Proof.
  revert hashes0 rules0.
  induction chains as [|[chain listed] chains IH];
    intros hashes0 rules0 H0 E; cbn in E.
  - injection E as <- <-. exact H0.
  - destruct listed as [rulesInChain|]; [| discriminate].
    eapply IH; [| exact E].
    intros c. destruct (decide (chain = c)) as [->|Hne].
    + rewrite !lookup_insert_eq. reflexivity.
    + rewrite !lookup_insert_ne by exact Hne. apply H0.
Qed.

Lemma getHashesAndRulesLoop_hashes (retries : nat) (retryDelay : Z)
    (t t' : Table M A) (w w' : World F)
    (hashes : gmap string (list string)) (rules : gmap string (list KRule)) :
  getHashesAndRulesLoop retries retryDelay t w = (Val (hashes, rules), t', w')
  -> hashCommentPrefix t' = hashCommentPrefix t
     /\ forall c,
          hashes !! c
          = map (hashOfRule (hashCommentPrefix t)) <$> rules !! c.
Proof.
  revert retryDelay t w.
  induction retries as [|retries IH]; intros retryDelay t w.
  all: destruct (read_round t w) as (r & t1 & w1 & Er & _ & Hp & Hr).
  all: cbn [getHashesAndRulesLoop].
  all: assert (Hrun : forall X (k : _ -> Prog X),
                 (onStillAlive;; r ← attemptToGetHashesAndRulesFromDataplane;
                  k r) t w = k r t1 w1).
  1,3: intros X k;
         change ((onStillAlive;; attemptToGetHashesAndRulesFromDataplane) t w
                 = (Val r, t1, w1)) in Er;
         rewrite run_bind in Er; rewrite run_bind;
         destruct (onStillAlive t w) as [[[[]|m0] t0] w0];
         [| discriminate];
         rewrite run_bind; rewrite Er; reflexivity.
  all: rewrite Hrun.
  all: destruct r as [hr|].
  1,3: intros E; prim_inv E; split; [exact Hp |];
         destruct (kernelReads w (reads w)) as [|chains]; [discriminate |];
         eapply hashesAndRulesOf_hashes;
         [| symmetry; exact Hr]; intros c; rewrite !lookup_empty; reflexivity.
  - intros E. prim_inv E.
  - rewrite run_bind. cbn [timeSleep emit]. intros E.
    apply IH in E as [E1 E2]. rewrite Hp in E1, E2. split; assumption.
Qed.

(** X15: the hashes and the rules that a read of the dataplane returns
    agree chain by chain: the hashes of a chain are those read off the
    comments of its rules, in order, so both lists have the same length. *)
Theorem getHashesAndRulesFromDataplane_hashes_of_rules
    (t t' : Table M A) (w w' : World F)
    (hashes : gmap string (list string)) (rules : gmap string (list KRule)) :
  getHashesAndRulesFromDataplane t w = (Val (hashes, rules), t', w') ->
  forall c,
    hashes !! c = map (hashOfRule (hashCommentPrefix t)) <$> rules !! c
    /\ List.length <$> hashes !! c = List.length <$> rules !! c.
Proof.
  intros E c.
  apply getHashesAndRulesLoop_hashes in E as [_ E].
  rewrite (E c). split; [reflexivity |].
  destruct (rules !! c); cbn; [rewrite length_map |]; reflexivity.
Qed.

End ReaderFacts.

(** ** The hash read back from a comment *)

Lemma beforeColon_noColon_app (pre body : string) :
  noColon pre = true ->
  beforeColon (pre ++ body) = pre ++ beforeColon body.
Proof.
  induction pre as [|c pre IH]; intros Hpre; [reflexivity |].
  cbn in Hpre. apply andb_true_iff in Hpre as [Hc Hpre].
  change (String c pre ++ body) with (String c (pre ++ body)).
  cbn [beforeColon].
  destruct (Ascii.eqb c ":"%char); [discriminate |].
  rewrite (IH Hpre). reflexivity.
Qed.

Lemma prefix_app (pre s : string) : String.prefix pre (pre ++ s) = true.
Proof.
  induction pre as [|c pre IH]; [destruct s; reflexivity |].
  change (String c pre ++ s) with (String c (pre ++ s)).
  cbn [String.prefix]. destruct (ascii_dec c c); [exact IH | congruence].
Qed.

Lemma substring_skip_app (pre s : string) :
  String.substring (String.length pre) (String.length s) (pre ++ s) = s.
Proof.
  induction pre as [|c pre IH].
  - change ("" ++ s) with s. cbn [String.length].
    induction s as [|c s IHs]; [reflexivity |].
    cbn [String.length String.substring]. rewrite IHs. reflexivity.
  - change (String c pre ++ s) with (String c (pre ++ s)).
    cbn [String.length String.substring]. exact IH.
Qed.

Lemma length_string_app (a b : string) :
  String.length (a ++ b) = (String.length a + String.length b)%nat.
Proof.
  induction a as [|c a IH]; [reflexivity |].
  change (String c a ++ b) with (String c (a ++ b)).
  cbn [String.length]. rewrite IH. reflexivity.
Qed.

Lemma TrimPrefix_app (pre s : string) : TrimPrefix (pre ++ s) pre = s.
Proof.
  unfold TrimPrefix. rewrite prefix_app, length_string_app.
  replace (String.length pre + String.length s - String.length pre)%nat
    with (String.length s) by lia.
  apply substring_skip_app.
Qed.

(** X16: with a hash prefix that holds no colon, the hash read back from a
    rule whose comment starts with the prefix is the text between the
    prefix and the first colon of the comment (all that follows the prefix
    when there is no colon). *)
Theorem hashOfRule_after_prefix (hashCommentPrefix body : string)
    (chain rule : string) (handle : option Z) :
  noColon hashCommentPrefix = true ->
  hashOfRule hashCommentPrefix
    (mkKRule chain rule (Some (hashCommentPrefix ++ body)) handle)
  = beforeColon body.
Proof.
  intros Hpre. unfold hashOfRule. cbn [kr_Comment].
  rewrite (beforeColon_noColon_app _ _ Hpre). apply TrimPrefix_app.
Qed.

(** ** What a reload leaves alone *)
Section ReloadFacts.
Context {F M A : Type} `{!MatchCriteria M} `{!Action F A} `{!Hasher}.

Lemma dirtyMarks_refl (t : Table M A) : dirtyMarks t t.
Proof.
  exists (dirtyChains t), (dirtyInsertAppend t).
  split; [destruct t; reflexivity | split; reflexivity].
Qed.

Lemma dirtyMarks_trans (t1 t2 t3 : Table M A) :
  dirtyMarks t1 t2 -> dirtyMarks t2 t3 -> dirtyMarks t1 t3.
Proof.
  intros (d1 & i1 & -> & Hd1 & Hi1) (d2 & i2 & -> & Hd2 & Hi2).
  cbn in Hd2, Hi2.
  exists d2, i2. split; [reflexivity |].
  split; etrans; eassumption.
Qed.

Lemma dirtyMarks_chain (c : string) (t : Table M A) :
  dirtyMarks t (set_dirtyChains ({[c]} ∪ dirtyChains t) t).
Proof.
  exists ({[c]} ∪ dirtyChains t), (dirtyInsertAppend t).
  split; [destruct t; reflexivity |].
  split; [apply union_subseteq_r | reflexivity].
Qed.

Lemma dirtyMarks_insertAppend (c : string) (t : Table M A) :
  dirtyMarks t (set_dirtyInsertAppend ({[c]} ∪ dirtyInsertAppend t) t).
Proof.
  exists (dirtyChains t), ({[c]} ∪ dirtyInsertAppend t).
  split; [destruct t; reflexivity |].
  split; [reflexivity | apply union_subseteq_r].
Qed.

Lemma checkExpectedChain_marks (features : F)
    (dataplaneHashes : gmap string (list string)) (t t' : Table M A)
    (entry : string * list string) :
  checkExpectedChain features dataplaneHashes t entry = Val t' ->
  dirtyMarks t t'.
Proof.
  destruct entry as [chainName expectedHashes]. unfold checkExpectedChain.
  repeat match goal with
         | |- context [if ?c then _ else _] => destruct c
         | |- context [expectedHashesForInsertAppendChain ?a ?b ?c ?d] =>
             destruct (expectedHashesForInsertAppendChain a b c d)
               as [[[? ?] ?]|?]; cbn
         end;
    intros E; try discriminate E; injection E as <-;
    auto using dirtyMarks_refl, dirtyMarks_chain, dirtyMarks_insertAppend.
Qed.

Lemma checkUnexpectedChain_marks (t : Table M A)
    (entry : string * list string) :
  dirtyMarks t (checkUnexpectedChain t entry).
Proof.
  destruct entry as [chainName dataplaneHashes]. unfold checkUnexpectedChain.
  repeat match goal with
         | |- context [if ?c then _ else _] => destruct c
         | |- context [match ?m !! ?k with _ => _ end] => destruct (m !! k)
         end;
    auto using dirtyMarks_refl, dirtyMarks_chain, dirtyMarks_insertAppend.
Qed.

Lemma foldRes_marks {X : Type} (f : Table M A -> X -> Res (Table M A))
    (l : list X) (t t' : Table M A) :
  (forall s x s', f s x = Val s' -> dirtyMarks s s') ->
  foldRes f l t = Val t' -> dirtyMarks t t'.
Proof.
  intros Hf. revert t. induction l as [|x l IH]; intros t; cbn.
  - intros E. injection E as <-. apply dirtyMarks_refl.
  - destruct (f t x) as [s|msg] eqn:Ef; cbn; [| discriminate].
    intros E. eapply dirtyMarks_trans; [eapply Hf; exact Ef | apply IH, E].
Qed.

Lemma foldl_marks {X : Type} (f : Table M A -> X -> Table M A)
    (l : list X) (t : Table M A) :
  (forall s x, dirtyMarks s (f s x)) -> dirtyMarks t (foldl f t l).
Proof.
  intros Hf. revert t. induction l as [|x l IH]; intros t; cbn.
  - apply dirtyMarks_refl.
  - eapply dirtyMarks_trans; [apply Hf | apply IH].
Qed.

(** X17: a reload of the dataplane state that returns has stamped the
    read clock with the time it started at and declared the table in
    sync; it leaves the desired state, the reference counts, the
    configuration and the write clock as they were, and every chain that
    was dirty before is dirty after. *)
Theorem loadDataplaneState_frame (t t' : Table M A) (w w' : World F) :
  loadDataplaneState t w = (Val tt, t', w') ->
  lastReadTime t' = clock w (ticks w)
  /\ inSyncWithDataPlane t' = true
  /\ reloadFrame t t'.
Proof.
  unfold loadDataplaneState. intros E.
  apply run_bind_val in E as (? & ? & ? & E1 & E). prim_inv E1.
  apply run_bind_val in E as (? & ? & ? & E1 & E). prim_inv E1.
  apply run_bind_val in E as (now & ? & ? & E1 & E). prim_inv E1.
  apply run_bind_val in E as (? & ? & ? & E1 & E). prim_inv E1.
  apply run_bind_val in E as ([dpHashes dpRules] & tb & wb & Eread & E).
  apply run_bind_val in E as (features & ? & ? & E1 & E). prim_inv E1.
  apply run_bind_val in E as (t0 & ? & ? & E1 & E). prim_inv E1.
  apply run_bind_val in E as (t2 & ? & ? & E1 & E).
  cbv [liftRes] in E1. injection E1 as Efold ? ?. subst. prim_inv E.
  pose proof (getHashesAndRulesFromDataplane_onlyPeakReadTime
                (F := F) (M := M) (A := A)) as Hread.
  match type of Eread with
  | getHashesAndRulesFromDataplane ?ta ?wa = _ =>
      specialize (Hread ta wa); rewrite Eread in Hread;
      destruct Hread as [v Hv]
  end.
  cbn in Hv. subst.
  eapply foldRes_marks in Efold;
    [| intros s x0 s'; apply checkExpectedChain_marks].
  pose proof (foldl_marks checkUnexpectedChain (map_to_list dpHashes) t2
                checkUnexpectedChain_marks) as Hmarks.
  destruct (dirtyMarks_trans _ _ _ Efold Hmarks)
    as (dirty & dirtyIA & -> & Hd & Hi).
  match goal with |- context [reloadFrame ?x _] => destruct x end.
  cbn in Hd, Hi |- *.
  unfold reloadFrame. cbn. repeat split; assumption.
Qed.

End ReloadFacts.

(** ** The transaction *)
Section TransactionFacts.
Context {F M A : Type} `{!MatchCriteria M} `{!Action F A} `{!Hasher}.

Lemma foldRes_invariant {S X : Type} (P : S -> Prop) (f : S -> X -> Res S)
    (l : list X) (s s' : S) :
  (forall s x s', P s -> f s x = Val s' -> P s') ->
  P s -> foldRes f l s = Val s' -> P s'.
Proof.
  intros Hf. revert s. induction l as [|x l IH]; intros s Hs; cbn.
  - intros E. injection E as <-. exact Hs.
  - destruct (f s x) as [s1|msg] eqn:Ef; cbn; [| discriminate].
    apply IH. eapply Hf; eassumption.
Qed.

Lemma foldl_invariant {S X : Type} (P : S -> Prop) (f : S -> X -> S)
    (l : list X) (s : S) :
  (forall s x, P s -> P (f s x)) -> P s -> P (foldl f s l).
Proof.
  intros Hf. revert s. induction l as [|x l IH]; intros s Hs; cbn; auto.
Qed.

Lemma prefix_of_app_r (base tx more : list TxOp) :
  base `prefix_of` tx -> base `prefix_of` (tx ++ more)%list.
Proof. intros [k ->]. exists (k ++ more)%list. symmetry. apply app_assoc. Qed.

Lemma ruleUpdate_extends (t : Table M A) (features : F) (chainName : string)
    (chain : Chain M A) (previousHashes currentHashes : list string)
    (base tx tx' : list TxOp) (i : nat) :
  base `prefix_of` tx ->
  ruleUpdate t features chainName chain previousHashes currentHashes tx i
  = Val tx' ->
  base `prefix_of` tx'.
Proof.
  intros Hbase. unfold ruleUpdate.
  repeat match goal with
         | |- context [if ?c then _ else _] => destruct c
         | |- context [index ?l ?i] => destruct (index l i); cbn
         end;
    intros E; try discriminate E; injection E as <-;
    auto using prefix_of_app_r.
Qed.

Lemma hookRule_extends (t : Table M A) (features : F) (chainName : string)
    (rules : list (Rule M A)) (hashes : list string) (op : KRule -> TxOp)
    (base tx tx' : list TxOp) (i : nat) :
  base `prefix_of` tx ->
  hookRule t features chainName rules hashes op tx i = Val tx' ->
  base `prefix_of` tx'.
Proof.
  intros Hbase. unfold hookRule.
  repeat match goal with
         | |- context [index ?l ?i] => destruct (index l i); cbn
         end;
    intros E; try discriminate E; injection E as <-;
    auto using prefix_of_app_r.
Qed.

Lemma chainUpdate_extends (t : Table M A) (features : F)
    (base : list TxOp) acc acc' (chainName : string) :
  base `prefix_of` acc.1 ->
  chainUpdate t features acc chainName = Val acc' ->
  base `prefix_of` acc'.1.
Proof.
  destruct acc as [tx newHashes]. cbn [fst]. intros Hbase.
  unfold chainUpdate.
  destruct (desiredStateOfChain t chainName) as [chain|].
  - match goal with
    | |- context [ruleUpdates ?a ?b ?c ?d ?e ?f ?g] =>
        destruct (ruleUpdates a b c d e f g) as [tx1|msg] eqn:Eupd
    end; cbn; [| discriminate].
    intros E. injection E as <-. cbn [fst].
    unfold ruleUpdates in Eupd.
    eapply (foldRes_invariant (fun tx => base `prefix_of` tx));
      [| | exact Eupd].
    + intros s x s' Hs. apply ruleUpdate_extends. exact Hs.
    + apply prefix_of_app_r. exact Hbase.
  - intros E. injection E as <-. exact Hbase.
Qed.

Lemma insertAppendUpdate_extends (t : Table M A) (features : F)
    (base : list TxOp) acc acc' (chainName : string) :
  base `prefix_of` acc.1.1 ->
  insertAppendUpdate t features acc chainName = Val acc' ->
  base `prefix_of` acc'.1.1.
Proof.
  destruct acc as [[tx newHashes] newFull]. cbn [fst]. intros Hbase.
  unfold insertAppendUpdate.
  match goal with
  | |- context [expectedHashesForInsertAppendChain ?a ?b ?c ?d] =>
      destruct (expectedHashesForInsertAppendChain a b c d)
        as [[[all ins] app]|msg]
  end; cbn; [| discriminate].
  destruct (bool_decide _).
  { intros E. injection E as <-. exact Hbase. }
  assert (Hflush : base `prefix_of` (tx ++ [TxFlushChain chainName])%list)
    by (apply prefix_of_app_r; exact Hbase).
  revert Hflush. generalize (tx ++ [TxFlushChain chainName])%list as tx0.
  intros tx0 Hflush.
  assert (Hfold : forall rules hashes op l tx1 tx2,
             base `prefix_of` tx1 ->
             foldRes (hookRule t features chainName rules hashes op) l tx1
             = Val tx2 ->
             base `prefix_of` tx2).
  { intros rules hashes op l tx1 tx2 H1 E.
    eapply (foldRes_invariant (fun tx => base `prefix_of` tx));
      [| exact H1 | exact E].
    intros s x s' Hs. apply hookRule_extends. exact Hs. }
  match goal with
  | |- context [mbind _ ?c] =>
      destruct c as [tx1|msg] eqn:E1; cbn; [| discriminate]
  end.
  assert (H1 : base `prefix_of` tx1).
  { revert E1.
    repeat match goal with
           | |- context [if ?c then _ else _] => destruct c
           end;
      intros E1; first [eapply Hfold; eassumption
                       | injection E1 as <-; exact Hflush]. }
  match goal with
  | |- context [mbind _ ?c] =>
      destruct c as [tx2|msg] eqn:E2; cbn; [| discriminate]
  end.
  intros E. injection E as <-. cbn [fst].
  revert E2.
  repeat match goal with
         | |- context [if ?c then _ else _] => destruct c
         end;
    intros E2; first [eapply Hfold; eassumption
                     | injection E2 as <-; exact H1].
Qed.

Lemma chainDeletion_extends (t : Table M A) (base : list TxOp) acc
    (chainName : string) :
  base `prefix_of` acc.1 ->
  base `prefix_of` (chainDeletion t acc chainName).1.
Proof.
  destruct acc as [tx newHashes]. cbn [fst]. intros Hbase.
  unfold chainDeletion.
  destruct (desiredStateOfChain t chainName); cbn [fst];
    auto using prefix_of_app_r.
Qed.

(** X18: every transaction that [applyUpdates] builds opens with the
    declaration of the table and of the kernel chains of its family, in
    the order of the base-chain list, so the transaction is never empty. *)
Theorem buildTransaction_opens_with_base (t : Table M A) (features : F)
    (tx : list TxOp) (newHashes : gmap string (option (list string)))
    (newChainToFullRules : gmap string (list KRule)) :
  buildTransaction t features = Val (tx, newHashes, newChainToFullRules) ->
  (TxAddTable :: map TxAddChain (kernelChains (TableName t)))
    `prefix_of` tx
  /\ (List.length tx =? 0)%nat = false.
Proof.
  intros E.
  assert (Hpre : (TxAddTable :: map TxAddChain (kernelChains (TableName t)))
                   `prefix_of` tx).
  { revert E. unfold buildTransaction.
    set (base := TxAddTable :: map TxAddChain (kernelChains (TableName t))).
    match goal with
    | |- context [foldRes (chainUpdate ?a ?b) ?l ?s] =>
        destruct (foldRes (chainUpdate a b) l s) as [[tx1 nh1]|msg] eqn:E1
    end; cbn; [| discriminate].
    assert (H1 : base `prefix_of` (tx1, nh1).1).
    { eapply (foldRes_invariant (fun acc => base `prefix_of` acc.1));
        [| | exact E1].
      - intros s x s'. apply chainUpdate_extends.
      - cbn [fst]. apply prefix_of_app_r. reflexivity. }
    match goal with
    | |- context [foldRes (insertAppendUpdate ?a ?b) ?l ?s] =>
        destruct (foldRes (insertAppendUpdate a b) l s)
          as [[[tx2 nh2] nf2]|msg] eqn:E2
    end; cbn; [| discriminate].
    assert (H2 : base `prefix_of` (tx2, nh2, nf2).1.1).
    { eapply (foldRes_invariant (fun acc => base `prefix_of` acc.1.1));
        [| | exact E2].
      - intros s x s'. apply insertAppendUpdate_extends.
      - exact H1. }
    pose proof (foldl_invariant (fun acc => base `prefix_of` acc.1)
                  (chainDeletion t) (elements (dirtyChains t)) (tx2, nh2)
                  (fun s x => chainDeletion_extends t base s x) H2) as H3.
    destruct (foldl (chainDeletion t) (tx2, nh2) (elements (dirtyChains t)))
      as [tx3 nh3].
    intros E. injection E as <- <- <-. exact H3. }
  split; [exact Hpre |].
  destruct Hpre as [k ->]. reflexivity.
Qed.

(** X19: on a table with no dirty chain the transaction is the
    declaration of the table and of the kernel chains alone; no hash is
    recorded and the staged rules are the observed ones. *)
Theorem buildTransaction_clean (t : Table M A) (features : F) :
  dirtyChains t = ∅ -> dirtyInsertAppend t = ∅ ->
  buildTransaction t features
  = Val (TxAddTable :: map TxAddChain (kernelChains (TableName t)), ∅,
         chainToFullRules t).
Proof.
  intros Hd Hi. unfold buildTransaction. rewrite Hd, Hi, elements_empty.
  cbn. rewrite app_nil_r. reflexivity.
Qed.

Lemma foldRes_same {S X : Type} (f : S -> X -> Res S) (l : list X) (s : S) :
  (forall x, x ∈ l -> f s x = Val s) -> foldRes f l s = Val s.
Proof.
  induction l as [|x l IH]; intros Hf; cbn; [reflexivity |].
  rewrite (Hf x) by constructor. cbn.
  apply IH. intros y Hy. apply Hf. constructor. exact Hy.
Qed.

(** X20: a chain whose computed hashes are the observed ones, position by
    position, adds no operation to the transaction and looks at no rule:
    the loop over the positions returns the transaction as it was. *)
Theorem ruleUpdates_same_hashes (t : Table M A) (features : F)
    (chainName : string) (chain : Chain M A) (hashes : list string)
    (tx : list TxOp) :
  ruleUpdates t features chainName chain hashes hashes tx = Val tx.
Proof.
  unfold ruleUpdates. apply foldRes_same. intros i Hi.
  apply elem_of_seq in Hi. rewrite Nat.max_id in Hi.
  unfold ruleUpdate.
  destruct (Nat.ltb_spec i (List.length hashes)) as [Hlt|]; [| lia].
  cbn [andb]. unfold index.
  destruct (lookup_lt_is_Some_2 hashes i Hlt) as [h ->]. cbn.
  rewrite String.eqb_refl. reflexivity.
Qed.

End TransactionFacts.

(** ** Failures, and the writes outside [Apply] *)
Section WriteFacts.
Context {F M A : Type} `{!MatchCriteria M} `{!Action F A} `{!Hasher}.

(** X21: [applyUpdates] returns an error only when the kernel refused the
    transaction; the error wraps the kernel's, and the table is then
    exactly as it was before the call, dirty chains included. *)
Theorem applyUpdates_failure (t t' : Table M A) (w w' : World F)
    (e : string) :
  applyUpdates t w = (Val (Some e), t', w') ->
  t' = t
  /\ exists err,
       kernelRuns w (runs w) = Some err
       /\ e = "error performing nft transaction: " ++ err.
Proof.
  unfold applyUpdates, applyUpdatesBody. intros E.
  apply run_bind_val in E as (? & ? & ? & E1 & E). prim_inv E1.
  apply run_bind_val in E as (features & ? & ? & E1 & E). prim_inv E1.
  apply run_bind_val in E as (t0 & ? & ? & E1 & E). prim_inv E1.
  apply run_bind_val in E as ([[tx nh] nf] & ? & ? & E1 & E). prim_inv E1.
  apply run_bind_val in E as (failure & ? & ? & E1 & E).
  destruct failure as [e0|].
  - prim_inv E. revert E1. unfold commitTransaction.
    destruct (List.length tx =? 0)%nat.
    + intros E1. prim_inv E1.
    + rewrite run_bind. run_prims. rewrite run_bind. run_prims.
      destruct (kernelRuns w (runs w)) as [err|]; intros E1.
      * prim_inv E1. split; [reflexivity |]. exists err. split; reflexivity.
      * apply run_bind_val in E1 as (? & ? & ? & _ & E1).
        apply run_bind_val in E1 as (? & ? & ? & _ & E1). prim_inv E1.
  - apply run_bind_val in E as (? & ? & ? & _ & E).
    apply run_bind_val in E as (? & ? & ? & _ & E).
    apply run_bind_val in E as (? & ? & ? & _ & E).
    prim_inv E.
Qed.

Lemma insertNowOps_spec (t : Table M A) (features : F) (chain : string)
    (hashes : list string) (i : nat) (rules : list (Rule M A))
    (tx : list TxOp) :
  List.length hashes = (i + List.length rules)%nat ->
  insertNowOps t features chain hashes i rules tx
  = Val (tx ++ insertions t features chain rules (drop i hashes))%list.
Proof.
  revert i tx. induction rules as [|r rules IH]; intros i tx Hlen.
  - cbn. unfold insertions. cbn. rewrite app_nil_r. reflexivity.
  - cbn [insertNowOps List.length] in *.
    destruct (lookup_lt_is_Some_2 hashes i ltac:(lia)) as [h Hh].
    unfold index. rewrite Hh. cbn.
    rewrite IH by lia.
    rewrite (drop_S hashes h i Hh). unfold insertions. cbn.
    rewrite <- app_assoc. reflexivity.
Qed.

(** X22: [InsertRulesNow] never panics and leaves the table untouched: it
    runs one transaction, which declares the table and then inserts each
    rule in input order with its fingerprint in the comment prefix, and it
    returns the kernel's error, wrapped, or nil. *)
Theorem InsertRulesNow_effect (chain : string) (rules : list (Rule M A))
    (t : Table M A) (w : World F) :
  let features := detected w (refreshes w) in
  let tx :=
    TxAddTable
    :: insertions t features chain rules
         (CalculateRuleHashes chain rules features) in
  (InsertRulesNow chain rules t w).1.1
  = Val (String.append "error performing InsertRulesNow nft transaction: "
           <$> kernelRuns w (runs w))
  /\ (InsertRulesNow chain rules t w).1.2 = t
  /\ trace (InsertRulesNow chain rules t w).2 = (trace w ++ [EvRun tx])%list.
Proof.
  intros features tx. unfold InsertRulesNow.
  rewrite run_bind. run_prims. rewrite run_bind. run_prims.
  rewrite run_bind. run_prims.
  rewrite insertNowOps_spec
    by (rewrite length_CalculateRuleHashes; reflexivity).
  rewrite drop_0. rewrite run_bind. run_prims.
  destruct (kernelRuns w (runs w)) as [err|]; repeat split.
Qed.

(** X23: without a refresh timer, the delay [Apply] hands back is
    positive while the post-write interval is under an hour (the time
    left to the next post-write check, or 1ms when that is due), and 0,
    for no reschedule, once the interval has reached an hour. *)
Theorem rescheduleAfter_without_refresh (now : Z) (t : Table M A) :
  refreshInterval t <= 0 ->
  (postWriteInterval t < Hour -> 0 < rescheduleAfter now t)
  /\ (Hour <= postWriteInterval t -> rescheduleAfter now t = 0).
Proof.
  intros Hrefresh. unfold rescheduleAfter.
  destruct (Z.gtb_spec (refreshInterval t) 0) as [|_]; [lia |].
  destruct (Z.ltb_spec (postWriteInterval t) Hour) as [Hlt|Hge].
  - split; [intros _ | lia].
    destruct (Z.leb_spec
                (time_Sub (time_Add (lastWriteTime t) (postWriteInterval t))
                   now) 0) as [|Hpos]; [reflexivity |].
    destruct (Z.leb_spec (refreshInterval t) 0); [| lia].
    cbn [orb]. exact Hpos.
  - split; [lia | reflexivity].
Qed.

Lemma InvalidateDataplaneCache_set_postWriteInterval (reason : string)
    (v : Z) (t : Table M A) :
  InvalidateDataplaneCache reason (set_postWriteInterval v t)
  = set_postWriteInterval v (InvalidateDataplaneCache reason t).
Proof.
  unfold InvalidateDataplaneCache. destruct t as [].
  cbn. destruct inSyncWithDataPlane0; reflexivity.
Qed.

Lemma postWriteLoop_result (fuel : nat) (now : Z) (invalidated : bool)
    (t t' : Table M A) (invalidated' : bool) :
  postWriteLoop fuel now invalidated t = Some (t', invalidated') ->
  postWriteSettled now t'
  /\ (t' = t /\ invalidated' = invalidated
      \/ invalidated' = true
         /\ t' = set_postWriteInterval (postWriteInterval t')
                   (if invalidated then t
                    else InvalidateDataplaneCache "post update" t)).
Proof.
  revert invalidated t.
  induction fuel as [|fuel IH]; intros invalidated t; [discriminate |].
  cbn [postWriteLoop].
  destruct (negb (postWriteInterval t =? 0)
            && (postWriteInterval t <? Hour)
            && negb (time_Before now
                       (time_Add (lastWriteTime t) (postWriteInterval t))))
    eqn:Hcond.
  - destruct invalidated; cbn [negb]; intros E; apply IH in E as [Hs Ht];
      (split; [exact Hs |]); right.
    + destruct Ht as [[Ht ->]|[-> Ht]]; (split; [reflexivity |]);
        rewrite Ht; destruct t; reflexivity.
    + destruct Ht as [[Ht ->]|[-> Ht]]; (split; [reflexivity |]);
        rewrite Ht; rewrite InvalidateDataplaneCache_set_postWriteInterval;
        destruct (InvalidateDataplaneCache "post update" t); reflexivity.
  - intros E. injection E as <- <-. split; [| left; split; reflexivity].
    unfold postWriteSettled, time_Before, time_Add in *.
    destruct (Z.eqb_spec (postWriteInterval t) 0); [left; assumption |].
    destruct (Z.ltb_spec (postWriteInterval t) Hour); [| right; left; lia].
    destruct (Z.ltb_spec now (lastWriteTime t + postWriteInterval t));
      [right; right; assumption | discriminate Hcond].
Qed.

(** X24: the loop of [Apply] that doubles the post-write interval ends
    within its 65 rounds, with the interval at 0, at an hour or more, or
    not yet elapsed since the last write; it changes nothing but the
    interval, apart from one invalidation of the cache, and when it did
    double the interval for a caller that had not invalidated the cache,
    the table is out of sync afterwards. *)
Theorem postWriteLoop_exit (now : Z) (invalidated : bool) (t : Table M A) :
  exists t' invalidated',
    postWriteLoop 65 now invalidated t = Some (t', invalidated')
    /\ postWriteSettled now t'
    /\ (t' = set_postWriteInterval (postWriteInterval t') t
        \/ t' = set_postWriteInterval (postWriteInterval t')
                  (InvalidateDataplaneCache "post update" t))
    /\ (postWriteInterval t' <> postWriteInterval t ->
        invalidated = false -> inSyncWithDataPlane t' = false).
Proof.
  destruct (postWriteLoop_terminates now invalidated t) as [[t' inv'] E].
  exists t', inv'. split; [exact E |].
  apply postWriteLoop_result in E as [Hs Ht].
  split; [exact Hs |]. split.
  - destruct Ht as [[-> _]|[_ Ht]].
    + left. destruct t; reflexivity.
    + destruct invalidated; [left | right]; exact Ht.
  - intros Hne ->. destruct Ht as [[-> _]|[_ Ht]]; [congruence |].
    rewrite Ht. unfold InvalidateDataplaneCache. destruct t as [].
    cbn. destruct inSyncWithDataPlane0; reflexivity.
Qed.

End WriteFacts.

(** ** The further properties on examples *)

(** X8 for a jump hooked into [FORWARD] of a new table. *)
Lemma mutate_frame_example :
  let m := MInsertOrAppendRules "FORWARD" [Demo.jumpTo "cali-x"] in
  let t' := default Demo.emptyTable (mutate 2 m Demo.freshTable) in
  mutate 2 m Demo.freshTable = Some t'
  /\ mutationFrame Demo.freshTable t'.
Proof.
  intros m t'.
  assert (E : mutate 2 m Demo.freshTable = Some t')
    by (vm_compute; reflexivity).
  split; [exact E |].
  exact (mutate_frame 2 m Demo.freshTable t' E).
Defined.

(** X9 for the same mutation. *)
Lemma mutate_effect_example :
  let rules := [Demo.jumpTo "cali-x"] in
  let m := MInsertOrAppendRules "FORWARD" rules in
  let t' := default Demo.emptyTable (mutate 2 m Demo.freshTable) in
  mutate 2 m Demo.freshTable = Some t'
  /\ chainToInsertedRules t'
     = <["FORWARD" := rules]> (chainToInsertedRules Demo.freshTable)
  /\ chainToAppendedRules t' = chainToAppendedRules Demo.freshTable
  /\ chainNameToChain t' = chainNameToChain Demo.freshTable
  /\ dirtyInsertAppend t' = {["FORWARD"]} ∪ dirtyInsertAppend Demo.freshTable
  /\ inSyncWithDataPlane t' = false.
Proof.
  intros rules m t'.
  assert (E : mutate 2 m Demo.freshTable = Some t')
    by (vm_compute; reflexivity).
  split; [exact E |].
  exact (mutate_effect 2 m Demo.freshTable t' E).
Defined.

(** X10 for a chain that nothing refers to in a new table. *)
Lemma UpdateChain_unreferenced_example :
  let chain := mkChain "cali-x" [mkRule "" (Some (Demo.Verdict "accept")) []] in
  chainIsReferenced Demo.freshTable (Name chain) = false
  /\ UpdateChain 2 chain Demo.freshTable
     = Some (set_chainNameToChain
               (<[Name chain := chain]> (chainNameToChain Demo.freshTable))
               Demo.freshTable).
Proof.
  intros chain.
  assert (H : chainIsReferenced Demo.freshTable (Name chain) = false)
    by (vm_compute; reflexivity).
  split; [exact H |].
  exact (UpdateChain_unreferenced 2 chain Demo.freshTable H).
Defined.

(** X11 for a chain that a new table does not know. *)
Lemma incref_decref_counts_example :
  exists t1 t2,
    increfChain 2 "cali-x" Demo.freshTable = Some t1
    /\ decrefChain 2 "cali-x" t1 = Some t2
    /\ chainRefCounts t2 = chainRefCounts Demo.freshTable.
Proof.
  apply (incref_decref_counts 1 "cali-x" Demo.freshTable).
  - vm_compute. reflexivity.
  - vm_compute. discriminate.
  - vm_compute. split; [discriminate | reflexivity].
Defined.

(** X12 for the table [cali-filter]. *)
Lemma NewTable_initial_state_example :
  NewTable "cali-filter" 4 "cali:" Demo.demoOptions 0 = Val Demo.freshTable
  /\ chainNameToChain Demo.freshTable = ∅
  /\ dirtyChains Demo.freshTable = ∅
  /\ inSyncWithDataPlane Demo.freshTable = false
  /\ lastWriteTime Demo.freshTable = 0.
Proof.
  assert (E : NewTable "cali-filter" 4 "cali:" Demo.demoOptions 0
              = Val Demo.freshTable) by (vm_compute; reflexivity).
  split; [exact E |].
  destruct (NewTable_initial_state "cali-filter" 4 "cali:" Demo.demoOptions
              0 Demo.freshTable E)
    as (_ & _ & _ & _ & H1 & H2 & _ & _ & H3 & _ & _ & _ & H4).
  repeat split; assumption.
Defined.

(** X15 on a kernel that holds two rules in [cali-x]. *)
Lemma getHashesAndRulesFromDataplane_hashes_of_rules_example :
  let run := getHashesAndRulesFromDataplane Demo.freshTable
               Demo.twoRulesWorld in
  let read := match run.1.1 with Val hr => hr | Panic _ => (∅, ∅) end in
  run = (Val read, run.1.2, run.2)
  /\ read.1 !! "cali-x"
     = map (hashOfRule (hashCommentPrefix Demo.freshTable))
         <$> read.2 !! "cali-x"
  /\ List.length <$> read.1 !! "cali-x" = List.length <$> read.2 !! "cali-x".
Proof.
  intros run read.
  assert (E : getHashesAndRulesFromDataplane Demo.freshTable
                Demo.twoRulesWorld = (Val (read.1, read.2), run.1.2, run.2))
    by (vm_compute; reflexivity).
  split; [vm_compute; reflexivity |].
  exact (getHashesAndRulesFromDataplane_hashes_of_rules Demo.freshTable
           run.1.2 Demo.twoRulesWorld run.2 read.1 read.2 E "cali-x").
Defined.

(** X16 for the prefix [cali-]. *)
Lemma hashOfRule_after_prefix_example :
  noColon "cali-" = true
  /\ hashOfRule "cali-"
       (mkKRule "cali-x" "accept" (Some ("cali-" ++ "AAAA; allow: all"))
          (Some 7))
     = beforeColon "AAAA; allow: all".
Proof.
  split; [reflexivity |].
  apply (hashOfRule_after_prefix "cali-" "AAAA; allow: all" "cali-x" "accept"
           (Some 7)).
  reflexivity.
Defined.

(** X17 for the first reload of a new table. *)
Lemma loadDataplaneState_frame_example :
  let run := loadDataplaneState Demo.freshTable Demo.twoRulesWorld in
  run = (Val tt, run.1.2, run.2)
  /\ lastReadTime run.1.2
     = clock Demo.twoRulesWorld (ticks Demo.twoRulesWorld)
  /\ inSyncWithDataPlane run.1.2 = true
  /\ reloadFrame Demo.freshTable run.1.2.
Proof.
  intros run.
  assert (E : loadDataplaneState Demo.freshTable Demo.twoRulesWorld
              = (Val tt, run.1.2, run.2)) by (vm_compute; reflexivity).
  split; [exact E |].
  exact (loadDataplaneState_frame Demo.freshTable run.1.2 Demo.twoRulesWorld
           run.2 E).
Defined.

(** X18 for the first transaction of a new table. *)
Lemma buildTransaction_opens_with_base_example :
  let built :=
    match buildTransaction Demo.freshTable tt with
    | Val b => b
    | Panic _ => ([], ∅, ∅)
    end in
  buildTransaction Demo.freshTable tt = Val built
  /\ (TxAddTable :: map TxAddChain (kernelChains (TableName Demo.freshTable)))
       `prefix_of` built.1.1
  /\ (List.length built.1.1 =? 0)%nat = false.
Proof.
  intros built.
  assert (E : buildTransaction Demo.freshTable tt
              = Val (built.1.1, built.1.2, built.2))
    by (vm_compute; reflexivity).
  split; [vm_compute; reflexivity |].
  exact (buildTransaction_opens_with_base Demo.freshTable tt built.1.1
           built.1.2 built.2 E).
Defined.

(** X19 for a table with nothing in it. *)
Lemma buildTransaction_clean_example :
  dirtyChains Demo.emptyTable = ∅
  /\ dirtyInsertAppend Demo.emptyTable = ∅
  /\ buildTransaction Demo.emptyTable tt
     = Val (TxAddTable
            :: map TxAddChain (kernelChains (TableName Demo.emptyTable)), ∅,
            chainToFullRules Demo.emptyTable).
Proof.
  split; [reflexivity |]. split; [reflexivity |].
  apply (buildTransaction_clean Demo.emptyTable tt); reflexivity.
Defined.

(** X21 on a kernel that refuses every transaction. *)
Lemma applyUpdates_failure_example :
  let run := applyUpdates Demo.freshTable Demo.failingWorld in
  let e := "error performing nft transaction: transaction failed" in
  run = (Val (Some e), run.1.2, run.2)
  /\ run.1.2 = Demo.freshTable
  /\ exists err,
       kernelRuns Demo.failingWorld (runs Demo.failingWorld) = Some err
       /\ e = "error performing nft transaction: " ++ err.
Proof.
  intros run e.
  assert (E : applyUpdates Demo.freshTable Demo.failingWorld
              = (Val (Some e), run.1.2, run.2)) by (vm_compute; reflexivity).
  split; [exact E |].
  exact (applyUpdates_failure Demo.freshTable run.1.2 Demo.failingWorld
           run.2 e E).
Defined.

(** X23 for a table with no timer at all. *)
Lemma rescheduleAfter_without_refresh_example :
  refreshInterval Demo.emptyTable <= 0
  /\ (postWriteInterval Demo.emptyTable < Hour ->
      0 < rescheduleAfter 5 Demo.emptyTable)
  /\ (Hour <= postWriteInterval Demo.emptyTable ->
      rescheduleAfter 5 Demo.emptyTable = 0).
Proof.
  assert (H : refreshInterval Demo.emptyTable <= 0) by (cbn; lia).
  split; [exact H |].
  exact (rescheduleAfter_without_refresh 5 Demo.emptyTable H).
Defined.
